(** * connect-america: the chat page and its proxy route

    A shallow embedding of [src/app/chat/page.tsx] (the React chat client)
    and of [app/api/chat/route.ts] (the [POST] handler that relays one
    message to the external assistant service), followed by the properties
    of the two that the specification states.

    Conventions of the embedding:
    - a JavaScript string is its sequence of UTF-16 code units;
    - a value obtained from [JSON.parse] / [Response.json()] is a [json];
      [undefined] is [None] in [jsval := option json];
    - [async] code is written in a state-and-exception monad whose outcome
      is a returned value, a thrown exception, or [Pending] when an awaited
      promise never settles;
    - what the code does to the outside (outbound calls, timers, aborts,
      console output) is appended to a trace kept in the state. *)

From Stdlib Require Import List ZArith NArith Bool String Ascii Lia.
Import ListNotations.

Set Implicit Arguments.

(** ** JavaScript values *)

Module Js.

(** A string, as JavaScript has it: UTF-16 code units. *)
Definition jsstring := list N.

(** A source literal (ASCII only in this program). *)
Definition lit (s : string) : jsstring :=
  List.map N_of_ascii (list_ascii_of_string s).

Fixpoint str_eqb (a b : jsstring) : bool :=
  match a, b with
  | [], [] => true
  | x :: a', y :: b' => N.eqb x y && str_eqb a' b'
  | _, _ => false
  end.

(** Values that [JSON.parse] produces.  Finite numbers are kept as
    integers: the code only ever tests a number for truthiness and never
    computes with one; a fraction behaves as any non-zero integer does.
    [JInfinity] is the number that a literal too large for a double (such
    as [1e400]) is read as: [Infinity], or [-Infinity] when [negative]. *)
#[warnings="-register-all"] Inductive json : Type :=
| JNull
| JBool (b : bool)
| JNum (n : Z)
| JStr (s : jsstring)
| JArr (items : list json)
| JObj (fields : list (jsstring * json))
| JInfinity (negative : bool).

(** A JavaScript value read from parsed JSON: [None] is [undefined]. *)
Definition jsval := option json.

(** ToBoolean, as used by [!x], [x || y] and [if (x)]. *)
Definition truthy (v : jsval) : bool :=
  match v with
  | None => false
  | Some JNull => false
  | Some (JBool b) => b
  | Some (JNum n) => negb (Z.eqb n 0)
  | Some (JStr s) => match s with [] => false | _ :: _ => true end
  | Some (JArr _) => true
  | Some (JObj _) => true
  | Some (JInfinity _) => true
  end.

(** [a || b] *)
Definition js_or (a b : jsval) : jsval := if truthy a then a else b.

Definition is_string (v : jsval) : bool :=
  match v with Some (JStr _) => true | _ => false end.

(** The own property [k] of a parsed object: of duplicate keys in the
    text, [JSON.parse] keeps the last. *)
Fixpoint own_property (k : jsstring) (fields : list (jsstring * json)) : jsval :=
  match fields with
  | [] => None
  | (k', v) :: rest =>
      match own_property k rest with
      | Some w => Some w
      | None => if str_eqb k' k then Some v else None
      end
  end.

(** An object literal with possibly-undefined members, as
    [JSON.stringify] writes it: members that are [undefined] are left out. *)
Fixpoint object_literal (members : list (jsstring * jsval)) : list (jsstring * json) :=
  match members with
  | [] => []
  | (k, Some v) :: rest => (k, v) :: object_literal rest
  | (_, None) :: rest => object_literal rest
  end.

(** [JSON.parse(JSON.stringify(v))]: a value as it arrives at the other
    end of the wire.  [JSON.stringify] writes a number that is not finite
    as [null], at any depth; every other parsed value is read back as it
    was. *)
Fixpoint on_wire (v : json) : json :=
  match v with
  | JInfinity _ => JNull
  | JArr items => JArr (List.map on_wire items)
  | JObj fields =>
      JObj (List.map (fun kv : jsstring * json =>
                        let (k, x) := kv in (k, on_wire x)) fields)
  | _ => v
  end.

(** Exceptions: what [instanceof Error] and [.name] say of them. *)
Record exn : Type := mkExn { is_Error : bool; name : jsstring }.

Definition SyntaxError : exn := mkExn true (lit "SyntaxError").
Definition TypeError : exn := mkExn true (lit "TypeError").
Definition RangeError : exn := mkExn true (lit "RangeError").
Definition AbortError : exn := mkExn true (lit "AbortError").
Definition Error : exn := mkExn true (lit "Error").

(** *** The monad of [async] functions over a state [S] *)

Inductive outcome (A : Type) : Type :=
| Returned (a : A)
| Thrown (e : exn)
| Pending.
Arguments Thrown {A} e.
Arguments Pending {A}.

Definition M (S A : Type) : Type := S -> outcome A * S.

Definition ret {S A} (a : A) : M S A := fun s => (Returned a, s).

Definition throw {S A} (e : exn) : M S A := fun s => (Thrown e, s).

Definition bind {S A B} (m : M S A) (k : A -> M S B) : M S B :=
  fun s =>
    match m s with
    | (Returned a, s') => k a s'
    | (Thrown e, s') => (Thrown e, s')
    | (Pending, s') => (Pending, s')
    end.

(** [try { m } catch (e) { h e }] *)
Definition try_catch {S A} (m : M S A) (h : exn -> M S A) : M S A :=
  fun s =>
    match m s with
    | (Thrown e, s') => h e s'
    | r => r
    end.

(** [try { m } finally { f }]: [f] runs once [m] has returned or thrown;
    a body that never settles never reaches it. *)
Definition try_finally {S A} (m : M S A) (f : M S unit) : M S A :=
  fun s =>
    match m s with
    | (Pending, s') => (Pending, s')
    | (r, s') =>
        match f s' with
        | (Returned _, s'') => (r, s'')
        | (Thrown e, s'') => (Thrown e, s'')
        | (Pending, s'') => (Pending, s'')
        end
    end.

Definition modify {S} (f : S -> S) : M S unit := fun s => (Returned tt, f s).

Definition gets {S A} (f : S -> A) : M S A := fun s => (Returned (f s), s).

(** [v.k] for the property names this program reads ([message],
    [response], [urls]): no built-in prototype defines them, so only a
    parsed object can have one; reading a property of [null] throws. *)
Definition field (v : json) (k : jsstring) : jsval :=
  match v with
  | JObj fields => own_property k fields
  | _ => None
  end.

Definition get_prop {S} (v : json) (k : jsstring) : M S jsval :=
  match v with
  | JNull => throw TypeError
  | _ => ret (field v k)
  end.

(** [await r.json()]: [None] is a body that is not JSON. *)
Definition parse_json {S} (body : option json) : M S json :=
  match body with
  | Some v => ret v
  | None => throw SyntaxError
  end.

(** [Response.ok] *)
Definition status_ok (status : Z) : bool :=
  (200 <=? status)%Z && (status <=? 299)%Z.

End Js.

Declare Scope js_scope.
Delimit Scope js_scope with js.
Notation "x <- m ;; k" := (Js.bind m (fun x => k))
  (at level 100, m at next level, right associativity) : js_scope.
Notation "m ;;; k" := (Js.bind m (fun _ => k))
  (at level 100, right associativity) : js_scope.

(** ** The proxy route: [app/api/chat/route.ts] *)

Module Route.
Import Js.
Local Open Scope js_scope.

(** The reply object handed to [NextResponse.json]: interface [Message],
    holding whatever values the handler puts in it at run time. *)
Record Message : Type := mkMessage {
  role : jsstring;
  content : jsval;
  urls : jsval
}.

(** What the handler returns: a body and a status. *)
Record NextResponse : Type := mkNextResponse {
  res_body : Message;
  res_status : Z
}.

(** The external assistant service, as seen from one outbound call.
    Times are milliseconds from the start of the call.
    - [Responds t status body]: a response arrives at [t]; [body] is what
      [response.json()] will give, [None] when the body is not JSON;
    - [Fails t e]: the call is rejected at [t] with [e] (a network error);
    - [Silent]: nothing ever arrives;
    - [Stalls t status]: the head of a response arrives at [t], so [fetch]
      resolves, but its body never completes: [response.json()] stays
      pending. *)
Inductive upstream : Type :=
| Responds (at_ms : Z) (status : Z) (body : option json)
| Fails (at_ms : Z) (e : exn)
| Silent
| Stalls (at_ms : Z) (status : Z).

Definition settles_at (u : upstream) : option Z :=
  match u with
  | Responds t _ _ => Some t
  | Fails t _ => Some t
  | Silent => None
  | Stalls t _ => Some t
  end.

(** The body of a response that [fetch] resolved to: complete ([None] when
    it is not JSON), or never completing. *)
Inductive body_read : Type :=
| Complete (text : option json)
| Incomplete.

(** The response object that [fetch] resolves to. *)
Record Response : Type := mkResponse {
  status : Z;
  payload : body_read
}.

(** [await response.json()] *)
Definition response_json {S} (r : Response) : M S json :=
  match payload r with
  | Complete text => parse_json text
  | Incomplete => fun s => (Pending, s)
  end.

Definition ok (r : Response) : bool := status_ok (status r).

Inductive effect : Type :=
| EConsoleLog
| EConsoleError
| ESetTimeout (ms : Z)
| EClearTimeout
| EFetch (url : jsstring) (body : json)
| EAbort.

(** One invocation's state: what it has done so far, the pending timer
    (its delay), and [controller.signal.aborted]. *)
Record runtime : Type := mkRuntime {
  trace : list effect;
  timer : option Z;
  aborted : bool
}.

Definition start : runtime := mkRuntime [] None false.

Definition emit (e : effect) : M runtime unit :=
  modify (fun rt => mkRuntime (trace rt ++ [e]) (timer rt) (aborted rt)).

(** [controller.abort()] *)
Definition controller_abort : M runtime unit :=
  modify (fun rt => mkRuntime (trace rt ++ [EAbort]) (timer rt) true).

(** [setTimeout(() => controller.abort(), ms)] *)
Definition setTimeout_abort (ms : Z) : M runtime unit :=
  modify (fun rt => mkRuntime (trace rt ++ [ESetTimeout ms]) (Some ms) (aborted rt)).

(** [clearTimeout(timeoutId)] *)
Definition clearTimeout : M runtime unit :=
  modify (fun rt => mkRuntime (trace rt ++ [EClearTimeout]) None (aborted rt)).

(** Does a timer of delay [d] fire before something due at [t]?  When
    both fall due at the same instant the event loop decides; [tie] says
    whether the timer callback runs first there. *)
Definition fires_first (tie : bool) (d t : Z) : bool :=
  (d <? t)%Z || (tie && (d =? t)%Z).

Definition settle (u : upstream) : M runtime Response :=
  match u with
  | Responds _ st body => ret (mkResponse st (Complete body))
  | Fails _ e => throw e
  | Silent => fun rt => (Pending, rt)
  | Stalls _ st => ret (mkResponse st Incomplete)
  end.

(** The timer callback runs: the timer is spent, the controller aborts,
    and the pending [fetch] rejects with an [AbortError]. *)
Definition timer_fires : M runtime Response :=
  modify (fun rt => mkRuntime (trace rt ++ [EAbort]) None true) ;;;
  throw AbortError.

(** [await fetch(url, { method: 'POST', body, signal: controller.signal })] *)
Definition fetch (url : jsstring) (body : json) (tie : bool) (u : upstream)
  : M runtime Response :=
  emit (EFetch url body) ;;;
  was_aborted <- gets aborted ;;
  if was_aborted : bool then throw AbortError
  else
    pending_timer <- gets timer ;;
    match pending_timer, settles_at u with
    | Some d, Some t => if fires_first tie d t then timer_fires else settle u
    | Some _, None => timer_fires
    | None, _ => settle u
    end.

(** A null body status: a response of such a status cannot have a body. *)
Definition null_body_status (st : Z) : bool :=
  (st =? 101)%Z || (st =? 103)%Z || (st =? 204)%Z || (st =? 205)%Z
  || (st =? 304)%Z.

(** [NextResponse.json(body, { status })], which is [Response.json]: the
    response is built from the body and the status it is given (200 when
    the handler gives none); a status outside 200..599 is refused with a
    [RangeError], and a null body status with a [TypeError], since there is
    a body. *)
Definition NextResponse_json (body : Message) (st : Z) : M runtime NextResponse :=
  if negb ((200 <=? st)%Z && (st <=? 599)%Z) then throw RangeError
  else if null_body_status st then throw TypeError
  else ret (mkNextResponse body st).

Definition assistant (text : string) : Message :=
  mkMessage (lit "assistant") (Some (JStr (lit text))) None.

Definition LLM_URL : jsstring := lit "https://connect-america-2.vercel.app/chat".

Definition deadline : Z := 290000.

(** [export async function POST(request: Request)].  [request] is the
    body of a request that has arrived whole, as [request.json()] reads
    it: [None] when it is not JSON.  The body given to [fetch] is
    [JSON.stringify({ message })]; the effect records it as the external
    service reads it. *)
Definition POST (request : option json) (tie : bool) (u : upstream)
  : M runtime NextResponse :=
  try_finally
    (try_catch
       (req <- parse_json request ;;
        message <- get_prop req (lit "message") ;;
        if negb (truthy message) then
          NextResponse_json (assistant "No message provided") 400
        else
          emit EConsoleLog ;;;
          setTimeout_abort deadline ;;;
          try_catch
            (response <- fetch LLM_URL
                           (JObj (object_literal
                                    [(lit "message", option_map on_wire message)]))
                           tie u ;;
             clearTimeout ;;;
             if negb (ok response) then
               NextResponse_json
                 (assistant "Sorry, I encountered an error processing your request.")
                 (status response)
             else
               data <- response_json response ;;
               r <- get_prop data (lit "response") ;;
               text <- (if truthy r then ret r
                        else
                          m <- get_prop data (lit "message") ;;
                          ret (js_or m (Some (JStr (lit "No response received"))))) ;;
               links <- get_prop data (lit "urls") ;;
               NextResponse_json (mkMessage (lit "assistant") text links) 200)
            (fun fetchError =>
               if is_Error fetchError && str_eqb (name fetchError) (lit "AbortError")
               then
                 NextResponse_json
                   (assistant "Sorry, the request timed out. Please try again.") 408
               else throw fetchError))
       (fun _ =>
          emit EConsoleError ;;;
          NextResponse_json
            (assistant "Sorry, something went wrong. Please try again.") 500))
    controller_abort.

(** One invocation, from a fresh state. *)
Definition run_POST (request : option json) (tie : bool) (u : upstream)
  : outcome NextResponse * runtime :=
  POST request tie u start.

Definition is_fetch (e : effect) : bool :=
  match e with EFetch _ _ => true | _ => false end.

(** The outbound calls among the effects of an invocation. *)
Definition outbound (rt : runtime) : list effect :=
  List.filter is_fetch (trace rt).

(** The body the client receives: the reply written by [JSON.stringify]
    and read back. *)
Definition wire (m : Message) : json :=
  JObj (object_literal
          [(lit "role", Some (JStr (role m)));
           (lit "content", option_map on_wire (content m));
           (lit "urls", option_map on_wire (urls m))]).

End Route.

(** ** The chat page: [src/app/chat/page.tsx] *)

Module Page.
Import Js.
Local Open Scope js_scope.
Local Open Scope N_scope.

(** *** Strings *)

(** WhiteSpace and LineTerminator code units, which [trim] strips. *)
Definition is_white_space (c : N) : bool :=
  (c =? 9) || (c =? 10) || (c =? 11) || (c =? 12) || (c =? 13) || (c =? 32)
  || (c =? 160) || (c =? 5760) || ((8192 <=? c) && (c <=? 8202))
  || (c =? 8232) || (c =? 8233) || (c =? 8239) || (c =? 8287)
  || (c =? 12288) || (c =? 65279).

Fixpoint trimStart (s : jsstring) : jsstring :=
  match s with
  | [] => []
  | c :: rest => if is_white_space c then trimStart rest else s
  end.

(** [s.trim()] *)
Definition trim (s : jsstring) : jsstring :=
  List.rev (trimStart (List.rev (trimStart s))).

(** [s.startsWith(p)] *)
Fixpoint startsWith (s p : jsstring) : bool :=
  match p, s with
  | [], _ => true
  | _ :: _, [] => false
  | x :: p', y :: s' => (x =? y) && startsWith s' p'
  end.

(** [s.includes(p)] *)
Fixpoint includes (s p : jsstring) : bool :=
  startsWith s p || match s with [] => false | _ :: s' => includes s' p end.

(** The document-type line of [References]:
    [url.includes('.pdf') ? 'PDF Document' :
     url.includes('.doc') ? 'Word Document' : 'Document'] *)
Definition document_type (url : jsstring) : jsstring :=
  if includes url (lit ".pdf") then lit "PDF Document"
  else if includes url (lit ".doc") then lit "Word Document"
  else lit "Document".

(** *** Component state *)

(** The [useState] cells of [ChatPage].  A transcript entry is the run-time
    object: what [handleSubmit] builds for the user, and for the assistant
    whatever [response.json()] gave. *)
Record ChatPage : Type := mkChatPage {
  messages : list json;
  inputValue : jsstring;
  isSidebarOpen : bool;
  loading : bool;
  error : option jsstring
}.

Inductive event : Type :=
| EPreventDefault
| EFetchApi (url : jsstring) (body : json)
| EConsoleError.

Record browser : Type := mkBrowser {
  page : ChatPage;
  events : list event
}.

Definition emit (e : event) : M browser unit :=
  modify (fun b => mkBrowser (page b) (events b ++ [e])).

Definition setMessages (f : list json -> list json) : M browser unit :=
  modify (fun b =>
    let p := page b in
    mkBrowser (mkChatPage (f (messages p)) (inputValue p) (isSidebarOpen p)
                          (loading p) (error p))
              (events b)).

Definition setInputValue (v : jsstring) : M browser unit :=
  modify (fun b =>
    let p := page b in
    mkBrowser (mkChatPage (messages p) v (isSidebarOpen p) (loading p) (error p))
              (events b)).

Definition setLoading (v : bool) : M browser unit :=
  modify (fun b =>
    let p := page b in
    mkBrowser (mkChatPage (messages p) (inputValue p) (isSidebarOpen p) v (error p))
              (events b)).

Definition setError (v : option jsstring) : M browser unit :=
  modify (fun b =>
    let p := page b in
    mkBrowser (mkChatPage (messages p) (inputValue p) (isSidebarOpen p)
                          (loading p) v)
              (events b)).

(** *** Talking to the route *)

(** What one call to [/api/chat] comes to.
    - [Answered status body]: a response; [body] is what [response.json()]
      will give, [None] when the body is not JSON;
    - [Unreachable]: the call is rejected, the handler cannot be reached;
    - [Unanswered]: nothing ever arrives. *)
Inductive reply : Type :=
| Answered (status : Z) (body : option json)
| Unreachable
| Unanswered.

(** The route as the page sees it: a reply for each request body. *)
Definition api := json -> reply.

(** [await fetch('/api/chat', { method: 'POST', body })] *)
Definition fetch (url : jsstring) (body : json) (srv : api)
  : M browser (Z * option json) :=
  emit (EFetchApi url body) ;;;
  match srv body with
  | Answered st b => ret (st, b)
  | Unreachable => throw TypeError
  | Unanswered => fun s => (Pending, s)
  end.

Definition sendMessageToAPI (message : jsstring) (srv : api) : M browser json :=
  try_catch
    (response <- fetch (lit "/api/chat")
                   (JObj (object_literal [(lit "message", Some (JStr message))]))
                   srv ;;
     if negb (status_ok (fst response)) then throw Error
     else
       data <- parse_json (snd response) ;;
       ret data)
    (fun err => emit EConsoleError ;;; throw err).

(** [{ role: 'user', content: inputValue }] *)
Definition userMessage (text : jsstring) : json :=
  JObj (object_literal
          [(lit "role", Some (JStr (lit "user")));
           (lit "content", Some (JStr text))]).

(** [handleSubmit], run by the render whose state is the state it starts
    in: [inputValue] below is that render's value throughout. *)
Definition handleSubmit (srv : api) : M browser unit :=
  emit EPreventDefault ;;;
  inputValue <- gets (fun b => inputValue (page b)) ;;
  if truthy (Some (JStr (trim inputValue))) then
    setError None ;;;
    setLoading true ;;;
    setMessages (fun prev => prev ++ [userMessage inputValue]) ;;;
    setInputValue [] ;;;
    try_finally
      (try_catch
         (aiResponse <- sendMessageToAPI inputValue srv ;;
          setMessages (fun prev => prev ++ [aiResponse]))
         (fun _ =>
            emit EConsoleError ;;;
            setError (Some (lit "Failed to get response. Please try again."))))
      (setLoading false)
  else ret tt.

Definition is_call (e : event) : bool :=
  match e with EFetchApi _ _ => true | _ => false end.

(** The calls to the route among the events. *)
Definition calls (b : browser) : list event :=
  List.filter is_call (events b).

(** The route of [Route.POST] behind [/api/chat], facing the external
    service [u].  A handler that threw would be answered for by the
    framework with a 500 that is not JSON. *)
Definition served (tie : bool) (u : Route.upstream) : api :=
  fun body =>
    match fst (Route.run_POST (Some body) tie u) with
    | Returned r =>
        Answered (Route.res_status r) (Some (Route.wire (Route.res_body r)))
    | Thrown _ => Answered 500 None
    | Pending => Unanswered
    end.

End Page.

(** ** Vocabulary of the statements *)

Module Terms.
Import Js.

(** The external service has not answered when the deadline passes. *)
Definition overdue (u : Route.upstream) : Prop :=
  match Route.settles_at u with
  | Some t => (Route.deadline < t)%Z
  | None => True
  end.

(** Something due at [t] gets in before the deadline timer. *)
Definition arrives (tie : bool) (t : Z) : Prop :=
  (t < Route.deadline)%Z \/ (t = Route.deadline /\ tie = false).

(** The text fields of a JSON answer of the external service hold text
    whenever they hold anything truthy. *)
Definition text_or_falsy (v : jsval) : bool := is_string v || negb (truthy v).

Definition textual (u : Route.upstream) : bool :=
  match u with
  | Route.Responds _ _ (Some data) =>
      text_or_falsy (field data (lit "response"))
      && text_or_falsy (field data (lit "message"))
  | _ => true
  end.

(** [p] occurs in [s]. *)
Definition occurs (p s : jsstring) : Prop :=
  exists before after, s = before ++ p ++ after.

(** [s] ends with [p]. *)
Definition ends_with (p s : jsstring) : Prop :=
  exists before, s = before ++ p.

(** The route answered with a status outside 200..299 ([!response.ok]), or
    could not be reached. *)
Definition failed (r : Page.reply) : Prop :=
  match r with
  | Page.Answered st _ => status_ok st = false
  | Page.Unreachable => True
  | Page.Unanswered => False
  end.

(** The request the page sends for the text [s]. *)
Definition request_for (s : jsstring) : json := JObj [(lit "message", JStr s)].

Definition hello : json := request_for (lit "hello").

End Terms.

(** ** The rest of the page: document titles, downloads, sidebar, keys *)

Module Docs.
Import Js Page.
Local Open Scope js_scope.
Local Open Scope N_scope.

(** [s.split(sep)] for a separator of one code unit: the pieces between
    the separators, in order; never an empty array. *)
Fixpoint split (sep : N) (s : jsstring) : list jsstring :=
  match s with
  | [] => [[]]
  | c :: rest =>
      if c =? sep then [] :: split sep rest
      else match split sep rest with
           | [] => [[c]]
           | w :: ws => (c :: w) :: ws
           end
  end.

(** [a.pop()]: the last element, [undefined] for an empty array. *)
Fixpoint pop (a : list jsstring) : option jsstring :=
  match a with
  | [] => None
  | [w] => Some w
  | _ :: rest => pop rest
  end.

(** [a.join(sep)] for a separator of one code unit. *)
Fixpoint join (sep : N) (a : list jsstring) : jsstring :=
  match a with
  | [] => []
  | [w] => w
  | w :: rest => w ++ sep :: join sep rest
  end.

(** [v || d] for a string or [undefined] [v]. *)
Definition or_else (v : option jsstring) (d : jsstring) : jsstring :=
  match v with
  | Some (c :: w) => c :: w
  | _ => d
  end.

(** [s.replace(/[-_]/g, ' ')] *)
Definition spaces_for_dashes (s : jsstring) : jsstring :=
  List.map (fun c => if (c =? 45) || (c =? 95) then 32 else c) s.

(** The class [[^/.]]: any code unit but [/] and [.]. *)
Definition extension_unit (c : N) : bool := negb ((c =? 47) || (c =? 46)).

(** [s.replace(/\.[^/.]+$/, '')]: the first place where a [.] is followed,
    up to the end of the string, by one or more code units that are neither
    [/] nor [.], is where the string is cut. *)
Fixpoint strip_extension (s : jsstring) : jsstring :=
  match s with
  | [] => []
  | c :: rest =>
      if (c =? 46) && match rest with [] => false | _ :: _ => true end
         && forallb extension_unit rest
      then []
      else c :: strip_extension rest
  end.

(** [c.toUpperCase()] for a string [c] of one code unit.  Below 128 the
    result is fixed by ASCII; [upper] stands for the Unicode case mapping
    of the other code units, which the built-in supplies. *)
Definition toUpperCase1 (upper : N -> jsstring) (c : N) : jsstring :=
  if (97 <=? c) && (c <=? 122) then [c - 32]
  else if c <? 128 then [c]
  else upper c.

(** [word.charAt(0).toUpperCase() + word.slice(1)] *)
Definition capitalize (upper : N -> jsstring) (word : jsstring) : jsstring :=
  match word with
  | [] => []
  | c :: rest => toUpperCase1 upper c ++ rest
  end.

Definition getDocumentTitle (upper : N -> jsstring) (url : jsstring) : jsstring :=
  let filename := or_else (pop (split 47 url)) [] in
  join 32
    (List.map (capitalize upper)
       (split 32 (strip_extension (spaces_for_dashes filename)))).

(** [s.toLowerCase()].  A string of code units below 128 is lowered unit by
    unit as ASCII has it; [lower] stands for the built-in on other strings. *)
Definition toLowerCase (lower : jsstring -> jsstring) (s : jsstring) : jsstring :=
  if forallb (fun c => c <? 128) s
  then List.map (fun c => if (65 <=? c) && (c <=? 90) then c + 32 else c) s
  else lower s.

(** [s.endsWith(p)] *)
Definition endsWith (s p : jsstring) : bool :=
  startsWith (List.rev s) (List.rev p).

(** [link.download] in [handleDownload]:
    [url.split('/').pop() || 'document.pdf'] *)
Definition download_name (url : jsstring) : jsstring :=
  or_else (pop (split 47 url)) (lit "document.pdf").

(** What [handleDownload] does to the document and the network.  The
    address in [AClick] is the string last assigned to [link.href]. *)
Inductive action : Type :=
| AFetch (url : jsstring)
| AWarn
| AAppend
| AClick (href download target : jsstring)
| ARemove
| ARevoke (object_url : jsstring)
| AError
| AWindowOpen (url : jsstring).

(** The fetch of the document as a blob.
    - [Blob u]: the response and its blob arrive, and
      [window.URL.createObjectURL(blob)] gives [u];
    - [NoBlob e]: [fetch] or [response.blob()] rejects with [e];
    - [NoAnswer]: nothing ever arrives. *)
Inductive blob_fetch : Type :=
| Blob (object_url : jsstring)
| NoBlob (e : exn)
| NoAnswer.

Definition act (a : action) : M (list action) unit :=
  modify (fun done => done ++ [a]).

(** [handleDownload].  [lower] is as in [toLowerCase]; [href_of s] is what
    [link.href] reads as after [s] was assigned to it (the browser resolves
    the assigned string against the document's address). *)
Definition handleDownload (lower : jsstring -> jsstring)
  (href_of : jsstring -> jsstring) (url : jsstring) (net : blob_fetch)
  : M (list action) unit :=
  try_catch
    (let download := download_name url in
     let target := lit "_blank" in
     href <- (if endsWith (toLowerCase lower url) (lit ".pdf") then
                try_catch
                  (act (AFetch url) ;;;
                   match net with
                   | Blob u => ret u
                   | NoBlob e => throw e
                   | NoAnswer => fun s => (Pending, s)
                   end)
                  (fun _ => act AWarn ;;; ret url)
              else ret url) ;;
     act AAppend ;;;
     act (AClick href download target) ;;;
     act ARemove ;;;
     if startsWith (href_of href) (lit "blob:")
     then act (ARevoke (href_of href))
     else ret tt)
    (fun _ => act AError ;;; act (AWindowOpen url)).

Definition is_afetch (a : action) : bool :=
  match a with AFetch _ => true | _ => false end.

End Docs.

Module View.
Import Js Page.
Local Open Scope js_scope.

(** [msg.role === 'user'], which throws when [msg] is [null]. *)
Definition role_is_user (msg : json) : option bool :=
  match msg with
  | JNull => None
  | _ => Some (match field msg (lit "role") with
               | Some (JStr r) => str_eqb r (lit "user")
               | _ => false
               end)
  end.

(** [messages.filter(msg => msg.role === 'user')] *)
Fixpoint filter_user (ms : list json) : outcome (list json) :=
  match ms with
  | [] => Returned []
  | m :: rest =>
      match role_is_user m with
      | None => Thrown TypeError
      | Some keep =>
          match filter_user rest with
          | Returned us => Returned (if keep then m :: us else us)
          | other => other
          end
      end
  end.

(** [a.slice(-n)]: the last [n] elements, all of them when there are fewer. *)
Definition slice_last {A} (n : nat) (a : list A) : list A :=
  List.skipn (List.length a - n) a.

(** The "Recent Chats" list of the sidebar: [None] stands for the line
    "No recent chats", and an entry is the [content] that is shown.
    [messages.length > 0
       ? messages.filter(msg => msg.role === 'user').slice(-5).map(...)
       : ...] *)
Definition recentChats (ms : list json) : outcome (option (list jsval)) :=
  match ms with
  | [] => Returned None
  | _ :: _ =>
      match filter_user ms with
      | Returned us =>
          Returned (Some (List.map (fun m => field m (lit "content"))
                                   (slice_last 5 us)))
      | Thrown e => Thrown e
      | Pending => Pending
      end
  end.

(** The key event as [handleKeyDown] reads it; [form] says whether
    [e.currentTarget.form] is an element. *)
Record KeyboardEvent : Type := mkKeyboardEvent {
  key : jsstring;
  shiftKey : bool;
  form : bool
}.

(** [handleKeyDown].  [form.requestSubmit()] raises the form's submit
    event, whose handler is [handleSubmit]; the outcome given is that of
    the submission so started. *)
Definition handleKeyDown (e : KeyboardEvent) (srv : api) : M browser unit :=
  if str_eqb (key e) (lit "Enter") && negb (shiftKey e) then
    Page.emit EPreventDefault ;;;
    if form e then handleSubmit srv else ret tt
  else ret tt.

(** The [onChange] of the text area, as far as the state goes:
    [setInputValue(target.value)]. *)
Definition onChange (value : jsstring) : M browser unit := setInputValue value.

End View.

(** ** Vocabulary of the further statements *)

Module Terms2.
Import Js.
Local Open Scope N_scope.

(** A file extension as [strip_extension] sees one: one or more code units,
    none of them [/] or [.]. *)
Definition extension (e : jsstring) : Prop :=
  e <> [] /\ forallb Docs.extension_unit e = true.

(** Every code unit is ASCII. *)
Definition ascii (s : jsstring) : Prop := Forall (fun c => c < 128) s.

(** A transcript entry that the page can render: an object whose [role] is
    "user" or "assistant". *)
Definition entry (m : json) : Prop :=
  exists fields,
    m = JObj fields /\
    (own_property (lit "role") fields = Some (JStr (lit "user")) \/
     own_property (lit "role") fields = Some (JStr (lit "assistant"))).

(** The messages of the transcript whose role is "user". *)
Definition by_user (m : json) : bool :=
  match field m (lit "role") with
  | Some (JStr r) => str_eqb r (lit "user")
  | _ => false
  end.

(** The upper-casing used in examples: nothing beyond ASCII changes. *)
Definition plain_upper (c : N) : jsstring := [c].

(** What the handler has done once it has forwarded the message [m]. *)
Definition forwarded (m : json) : list Route.effect :=
  [Route.EConsoleLog; Route.ESetTimeout 290000;
   Route.EFetch Route.LLM_URL (JObj [(lit "message", on_wire m)])].

(** [fetchError instanceof Error && fetchError.name === 'AbortError'] *)
Definition abort_like (e : exn) : bool :=
  is_Error e && str_eqb (name e) (lit "AbortError").

(** The deadline timer goes off before the external service settles. *)
Definition times_out (tie : bool) (u : Route.upstream) : Prop :=
  match Route.settles_at u with
  | Some t => Route.fires_first tie Route.deadline t = true
  | None => True
  end.

(** The fixed replies of the handler. *)
Definition no_message : Route.Message := Route.assistant "No message provided".
Definition timed_out : Route.Message :=
  Route.assistant "Sorry, the request timed out. Please try again.".
Definition upstream_error : Route.Message :=
  Route.assistant "Sorry, I encountered an error processing your request.".
Definition went_wrong : Route.Message :=
  Route.assistant "Sorry, something went wrong. Please try again.".

(** The reply on success, from the body [data] of the external answer. *)
Definition relayed (data : json) : Route.Message :=
  Route.mkMessage (lit "assistant")
    (js_or (field data (lit "response"))
       (js_or (field data (lit "message"))
          (Some (JStr (lit "No response received")))))
    (field data (lit "urls")).

(** What [handleDownload] does after the click: the object URL is given
    back when the link's address reads as a [blob:] one. *)
Definition after_click (href_of : jsstring -> jsstring) (href : jsstring)
  : list Docs.action :=
  if Page.startsWith (href_of href) (lit "blob:")
  then [Docs.ARevoke (href_of href)]
  else [].

(** The input holds nothing but white space (or nothing at all). *)
Definition blank (s : jsstring) : Prop :=
  forallb Page.is_white_space s = true.

(** The head of the response that [fetch] resolves to, when the external
    service sends one: when it arrives, and its status. *)
Definition head_of (u : Route.upstream) : option (Z * Z) :=
  match u with
  | Route.Responds t st _ => Some (t, st)
  | Route.Stalls t st => Some (t, st)
  | _ => None
  end.

(** A status that [NextResponse.json] accepts for a reply: within
    200..599 and not a null body status. *)
Definition carries_body (st : Z) : bool :=
  (200 <=? st)%Z && (st <=? 599)%Z && negb (Route.null_body_status st).

(** The one way the handler is left waiting: a 2xx head arrives before the
    deadline, the timer is cleared, and the body never completes. *)
Definition stalled (tie : bool) (u : Route.upstream) : Prop :=
  exists t st,
    u = Route.Stalls t st /\
    ((t < Route.deadline)%Z \/ (t = Route.deadline /\ tie = false)) /\
    status_ok st = true.

End Terms2.

(** ** The proxy route *)

Section RouteFacts.
Import Js Route Terms Terms2.

Ltac unfold_route :=
  cbv [run_POST POST try_finally try_catch bind parse_json response_json
       get_prop fetch timer_fires settle setTimeout_abort clearTimeout
       controller_abort emit NextResponse_json modify gets throw ret
       start trace timer aborted app settles_at ok status payload negb].

Lemma arrives_fires_first tie t :
  arrives tie t <-> fires_first tie deadline t = false.
Proof.
  unfold arrives, fires_first. rewrite orb_false_iff, andb_false_iff.
  rewrite Z.ltb_ge, Z.eqb_neq. split.
  - intros [H | [H1 H2]].
    + split; [lia | right; lia].
    + split; [lia | now left].
  - intros [H [H1 | H1]]; [ | lia].
    destruct (Z.eq_dec t deadline); [right; easy | left; lia].
Qed.

Lemma overdue_fires_first tie u t :
  overdue u -> settles_at u = Some t -> fires_first tie deadline t = true.
Proof.
  unfold overdue, fires_first. intros H E. rewrite E in H.
  apply orb_true_iff. left. apply Z.ltb_lt. exact H.
Qed.

(** A request whose [message] is falsy is answered at once with 400. *)
Lemma POST_falsy_message (req : json) tie u :
  req <> JNull ->
  truthy (field req (lit "message")) = false ->
  run_POST (Some req) tie u =
    (Returned (mkNextResponse (assistant "No message provided") 400),
     mkRuntime [EAbort] None true).
Proof.
  intros Hn Hm. unfold_route.
  destruct req; try congruence; rewrite Hm; reflexivity.
Qed.

(** The paths through the handler once the message is known to be truthy,
    by what the external service does. *)
Lemma POST_forward_paths (req m : json) tie u :
  field req (lit "message") = Some m ->
  truthy (Some m) = true ->
  (times_out tie u /\
   run_POST (Some req) tie u =
     (Returned (mkNextResponse timed_out 408),
      mkRuntime (forwarded m ++ [EAbort; EAbort]) None true))
  \/ (exists t e, u = Fails t e /\ arrives tie t /\ abort_like e = true /\
      run_POST (Some req) tie u =
        (Returned (mkNextResponse timed_out 408),
         mkRuntime (forwarded m ++ [EAbort]) (Some deadline) true))
  \/ (exists t e, u = Fails t e /\ arrives tie t /\ abort_like e = false /\
      run_POST (Some req) tie u =
        (Returned (mkNextResponse went_wrong 500),
         mkRuntime (forwarded m ++ [EConsoleError; EAbort]) (Some deadline) true))
  \/ (exists t st, head_of u = Some (t, st) /\ arrives tie t /\
      status_ok st = false /\ carries_body st = true /\
      run_POST (Some req) tie u =
        (Returned (mkNextResponse upstream_error st),
         mkRuntime (forwarded m ++ [EClearTimeout; EAbort]) None true))
  \/ (exists t st, head_of u = Some (t, st) /\ arrives tie t /\
      status_ok st = false /\ carries_body st = false /\
      run_POST (Some req) tie u =
        (Returned (mkNextResponse went_wrong 500),
         mkRuntime (forwarded m ++ [EClearTimeout; EConsoleError; EAbort])
                   None true))
  \/ (exists t st body, u = Responds t st body /\ arrives tie t /\
      status_ok st = true /\ (body = None \/ body = Some JNull) /\
      run_POST (Some req) tie u =
        (Returned (mkNextResponse went_wrong 500),
         mkRuntime (forwarded m ++ [EClearTimeout; EConsoleError; EAbort])
                   None true))
  \/ (exists t st data, u = Responds t st (Some data) /\ arrives tie t /\
      status_ok st = true /\ data <> JNull /\
      run_POST (Some req) tie u =
        (Returned (mkNextResponse (relayed data) 200),
         mkRuntime (forwarded m ++ [EClearTimeout; EAbort]) None true))
  \/ (stalled tie u /\
      run_POST (Some req) tie u =
        (Pending, mkRuntime (forwarded m ++ [EClearTimeout]) None false)).
Proof.
  intros Hmsg Htruthy.
  assert (Hn : req <> JNull) by (intros ->; discriminate Hmsg).
  assert (E : forall k : outcome NextResponse * runtime,
            POST (Some req) tie u start = k -> run_POST (Some req) tie u = k)
    by (intros k <-; reflexivity).
  assert (Hhead : forall t st,
            head_of u = Some (t, st) ->
            fires_first tie deadline t = false -> status_ok st = false ->
            (carries_body st = true /\
             POST (Some req) tie u start =
               (Returned (mkNextResponse upstream_error st),
                mkRuntime (forwarded m ++ [EClearTimeout; EAbort]) None true))
            \/ (carries_body st = false /\
                POST (Some req) tie u start =
                  (Returned (mkNextResponse went_wrong 500),
                   mkRuntime
                     (forwarded m ++ [EClearTimeout; EConsoleError; EAbort])
                     None true))).
  { intros t st Hu Hf Hok. unfold carries_body.
    destruct ((200 <=? st)%Z && (st <=? 599)%Z) eqn:Hr;
      [destruct (null_body_status st) eqn:Hb | ];
      [right | left | right]; (split; [reflexivity | ]);
      (destruct u as [t' st' body | | | t' st']; try discriminate Hu;
       injection Hu as -> ->; unfold_route;
       destruct req; try congruence; rewrite Hmsg, Htruthy, Hf;
       unfold_route; rewrite Hok, Hr, ?Hb; reflexivity). }
  destruct u as [t st body | t e | | t st].
  - destruct (fires_first tie deadline t) eqn:Hf.
    + left. split; [exact Hf | ]. apply E. unfold_route.
      destruct req; try congruence; rewrite Hmsg, Htruthy, Hf; reflexivity.
    + apply arrives_fires_first in Hf as Ha. do 3 right.
      destruct (status_ok st) eqn:Hok.
      * do 2 right. destruct body as [data | ].
        -- destruct data eqn:Hd.
           1: { left. exists t, st, (Some JNull). repeat split; auto.
                apply E. unfold_route.
                destruct req; try congruence; rewrite Hmsg, Htruthy, Hf;
                  unfold_route; rewrite Hok; reflexivity. }
           all: right; left; eexists t, st, _; split; [reflexivity | ];
             split; [exact Ha | ]; split; [exact Hok | ];
             split; [discriminate | ];
             apply E; unfold relayed, js_or at 1; unfold_route;
             destruct req; try congruence; rewrite Hmsg, Htruthy, Hf;
             unfold_route; rewrite Hok;
             destruct (truthy (field _ (lit "response"))); reflexivity.
        -- left. exists t, st, None. repeat split; auto.
           apply E. unfold_route.
           destruct req; try congruence; rewrite Hmsg, Htruthy, Hf;
             unfold_route; rewrite Hok; reflexivity.
      * destruct (Hhead t st eq_refl Hf Hok) as [[Hc H] | [Hc H]];
          [left | right; left]; exists t, st; repeat split; auto.
  - destruct (fires_first tie deadline t) eqn:Hf.
    + left. split; [exact Hf | ]. apply E. unfold_route.
      destruct req; try congruence; rewrite Hmsg, Htruthy, Hf; reflexivity.
    + apply arrives_fires_first in Hf as Ha. right.
      destruct (abort_like e) eqn:Hab; [left | right; left];
        exists t, e; repeat split; auto; apply E; unfold_route;
        unfold abort_like in Hab;
        destruct req; try congruence; rewrite Hmsg, Htruthy, Hf;
        unfold_route; rewrite Hab; reflexivity.
  - left. split; [exact I | ]. apply E. unfold_route.
    destruct req; try congruence; rewrite Hmsg, Htruthy; reflexivity.
  - destruct (fires_first tie deadline t) eqn:Hf.
    + left. split; [exact Hf | ]. apply E. unfold_route.
      destruct req; try congruence; rewrite Hmsg, Htruthy, Hf; reflexivity.
    + apply arrives_fires_first in Hf as Ha. do 3 right.
      destruct (status_ok st) eqn:Hok.
      * do 4 right. split; [exists t, st; auto | ].
        apply E. unfold_route.
        destruct req; try congruence; rewrite Hmsg, Htruthy, Hf;
          unfold_route; rewrite Hok; reflexivity.
      * destruct (Hhead t st eq_refl Hf Hok) as [[Hc H] | [Hc H]];
          [left | right; left]; exists t, st; repeat split; auto.
Qed.

(** Every way through the handler: the request is refused, or found
    without a message, or forwarded. *)
Lemma POST_paths (request : option json) tie u :
  ((request = None \/ request = Some JNull) /\
   run_POST request tie u =
     (Returned (mkNextResponse went_wrong 500),
      mkRuntime [EConsoleError; EAbort] None true))
  \/ (exists req, request = Some req /\ req <> JNull /\
      truthy (field req (lit "message")) = false /\
      run_POST request tie u =
        (Returned (mkNextResponse no_message 400), mkRuntime [EAbort] None true))
  \/ (exists req m, request = Some req /\
      field req (lit "message") = Some m /\ truthy (Some m) = true).
Proof.
  destruct request as [req | ]; [ | left; split; [now left | reflexivity]].
  destruct (truthy (field req (lit "message"))) eqn:Ht.
  - right. right. destruct (field req (lit "message")) as [m | ] eqn:Hm;
      [ | discriminate Ht]. exists req, m. auto.
  - assert (Hd : req = JNull \/ req <> JNull)
      by (destruct req; (left; reflexivity) || (right; discriminate)).
    destruct Hd as [-> | Hn].
    + left. split; [now right | reflexivity].
    + right. left. exists req. repeat split; auto.
      apply POST_falsy_message; assumption.
Qed.

Lemma head_settles u t st : head_of u = Some (t, st) -> settles_at u = Some t.
Proof. destruct u; intros [=]; subst; reflexivity. Qed.

Lemma times_out_not_arrives tie u t :
  times_out tie u -> settles_at u = Some t -> arrives tie t -> False.
Proof.
  unfold times_out. intros H E Ha. rewrite E in H.
  apply arrives_fires_first in Ha. congruence.
Qed.

Lemma carries_body_spec st :
  carries_body st = true
  <-> ((200 <= st <= 599)%Z /\ st <> 204%Z /\ st <> 205%Z /\ st <> 304%Z).
Proof.
  unfold carries_body, null_body_status.
  rewrite !andb_true_iff, negb_true_iff, !orb_false_iff, !Z.leb_le, !Z.eqb_neq.
  split; [intros [[H1 H2] [[[[H3 H4] H5] H6] H7]] | intros ([H1 H2] & H3 & H4 & H5)];
    repeat split; auto; lia.
Qed.

Lemma status_ok_spec st : status_ok st = true <-> (200 <= st <= 299)%Z.
Proof.
  unfold status_ok. rewrite andb_true_iff, !Z.leb_le. tauto.
Qed.

(** What the client reads in the body of a reply. *)
Lemma wire_fields (m : Message) :
  field (wire m) (lit "role") = Some (JStr (role m))
  /\ field (wire m) (lit "content") = option_map on_wire (content m)
  /\ field (wire m) (lit "urls") = option_map on_wire (urls m).
Proof.
  destruct m as [r [c | ] [l | ]]; repeat split.
Qed.

(** C1 (amended): a request whose JSON body is a value other than [null]
    with no [message] field, or an empty one, is answered with status 400
    and the body [{role: "assistant", content: "No message provided"}]; the
    invocation sets no timer and makes no outbound call (its only effect is
    the [controller.abort()] of the [finally] block). *)
Theorem POST_no_message (req : json) (tie : bool) (u : upstream)
  (Hobj : req <> JNull)
  (Hmsg : field req (lit "message") = None \/
          field req (lit "message") = Some (JStr [])) :
  run_POST (Some req) tie u =
    (Returned (mkNextResponse (assistant "No message provided") 400),
     mkRuntime [EAbort] None true)
  /\ outbound (snd (run_POST (Some req) tie u)) = [].
Proof.
  assert (E : truthy (field req (lit "message")) = false)
    by (destruct Hmsg as [-> | ->]; reflexivity).
  rewrite (POST_falsy_message tie u Hobj E). split; reflexivity.
Qed.

Lemma POST_no_message_witness :
  run_POST (Some (JObj [(lit "text", JStr (lit "hello"))])) true Silent =
    (Returned (mkNextResponse (assistant "No message provided") 400),
     mkRuntime [EAbort] None true)
  /\ outbound (snd (run_POST (Some (JObj [(lit "text", JStr (lit "hello"))]))
                             true Silent)) = [].
Proof.
  apply POST_no_message; [discriminate | left; reflexivity].
Defined.

(** A body that is the JSON [null] cannot be destructured: the handler
    answers 500 as for any other unexpected failure. *)
Lemma POST_null_body tie u :
  run_POST (Some JNull) tie u =
    (Returned
       (mkNextResponse
          (assistant "Sorry, something went wrong. Please try again.") 500),
     mkRuntime [EConsoleError; EAbort] None true).
Proof. reflexivity. Qed.

(** C1, as stated, fails: the JSON body [null] has no [message] field, yet
    the request is not answered with 400 "No message provided":
    destructuring [null] throws, and the handler answers 500 with
    "Sorry, something went wrong. Please try again.". *)
Lemma POST_null_body_not_400 :
  field JNull (lit "message") = None
  /\ run_POST (Some JNull) true Silent =
       (Returned
          (mkNextResponse
             (assistant "Sorry, something went wrong. Please try again.") 500),
        mkRuntime [EConsoleError; EAbort] None true)
  /\ res_status
       (mkNextResponse
          (assistant "Sorry, something went wrong. Please try again.") 500)
     <> 400%Z.
Proof. repeat split. discriminate. Qed.

(** C10: a request body that is not JSON is answered with status 500 and
    the content "Sorry, something went wrong. Please try again." (not with
    the 400 of the validation branch), and no outbound call is made. *)
Theorem POST_unparseable_body (tie : bool) (u : upstream) :
  run_POST None tie u =
    (Returned
       (mkNextResponse
          (assistant "Sorry, something went wrong. Please try again.") 500),
     mkRuntime [EConsoleError; EAbort] None true)
  /\ outbound (snd (run_POST None tie u)) = [].
Proof. split; reflexivity. Qed.

(** C2: for a request with a non-empty (truthy) [message], when the
    external service has not answered by the 290 000 ms deadline, the
    timer aborts the one outbound call and the handler answers with
    status 408 and the content
    "Sorry, the request timed out. Please try again.". *)
Theorem POST_timeout (req m : json) (tie : bool) (u : upstream)
  (Hmsg : field req (lit "message") = Some m)
  (Htruthy : truthy (Some m) = true)
  (Hlate : overdue u) :
  run_POST (Some req) tie u =
    (Returned
       (mkNextResponse
          (assistant "Sorry, the request timed out. Please try again.") 408),
     mkRuntime
       [EConsoleLog; ESetTimeout 290000;
        EFetch LLM_URL (JObj [(lit "message", on_wire m)]); EAbort; EAbort]
       None true).
Proof.
  assert (Hn : req <> JNull) by (intros ->; discriminate Hmsg).
  unfold_route.
  destruct req; try congruence; rewrite Hmsg, Htruthy;
    (destruct u as [t st body | t e | | t st]; unfold_route;
     [ rewrite (@overdue_fires_first tie _ t Hlate eq_refl)
     | rewrite (@overdue_fires_first tie _ t Hlate eq_refl)
     |
     | rewrite (@overdue_fires_first tie _ t Hlate eq_refl) ];
     reflexivity).
Qed.

Lemma POST_timeout_witness :
  run_POST (Some hello) false (Responds 290001 200 None) =
    (Returned
       (mkNextResponse
          (assistant "Sorry, the request timed out. Please try again.") 408),
     mkRuntime
       [EConsoleLog; ESetTimeout 290000;
        EFetch LLM_URL (JObj [(lit "message", JStr (lit "hello"))]); EAbort; EAbort]
       None true).
Proof.
  apply (@POST_timeout hello (JStr (lit "hello")) false (Responds 290001 200 None));
    reflexivity.
Defined.

(** C3 (amended): for a request with a truthy [message], when the head of
    the external service's answer arrives in time with a status outside
    200..299, the body of that answer is not read, and
    - if the status is one a reply with a body can carry (300..599, 304
      apart), the handler answers with that same status and the content
      "Sorry, I encountered an error processing your request.";
    - if it is 304, or outside 200..599, [NextResponse.json] refuses it and
      the handler answers through its catch-all: status 500 and the content
      "Sorry, something went wrong. Please try again.". *)
Theorem POST_upstream_error (req m : json) (tie : bool) (u : upstream)
  (t st : Z)
  (Hmsg : field req (lit "message") = Some m)
  (Htruthy : truthy (Some m) = true)
  (Hhead : head_of u = Some (t, st))
  (Hintime : arrives tie t)
  (Hstatus : ~ (200 <= st <= 299)%Z) :
  ((300 <= st <= 599)%Z -> st <> 304%Z ->
   run_POST (Some req) tie u =
     (Returned
        (mkNextResponse
           (assistant "Sorry, I encountered an error processing your request.")
           st),
      mkRuntime
        [EConsoleLog; ESetTimeout 290000;
         EFetch LLM_URL (JObj [(lit "message", on_wire m)]);
         EClearTimeout; EAbort]
        None true))
  /\ ((st < 200 \/ 599 < st \/ st = 304)%Z ->
      run_POST (Some req) tie u =
        (Returned
           (mkNextResponse
              (assistant "Sorry, something went wrong. Please try again.") 500),
         mkRuntime
           [EConsoleLog; ESetTimeout 290000;
            EFetch LLM_URL (JObj [(lit "message", on_wire m)]);
            EClearTimeout; EConsoleError; EAbort]
           None true)).
Proof.
  assert (Hcases :
    (carries_body st = true /\
     run_POST (Some req) tie u =
       (Returned (mkNextResponse upstream_error st),
        mkRuntime (forwarded m ++ [EClearTimeout; EAbort]) None true))
    \/ (carries_body st = false /\
        run_POST (Some req) tie u =
          (Returned (mkNextResponse went_wrong 500),
           mkRuntime (forwarded m ++ [EClearTimeout; EConsoleError; EAbort])
                     None true))).
  { destruct (POST_forward_paths req tie u Hmsg Htruthy)
      as [[Hto _] | [(t' & e & Hu & _) | [(t' & e & Hu & _)
         | [(t' & st' & Hu & _ & _ & Hc & E) | [(t' & st' & Hu & _ & _ & Hc & E)
         | [(t' & st' & b & Hu & _ & Hok & _)
         | [(t' & st' & d & Hu & _ & Hok & _)
         | [(t' & st' & Hu & _ & Hok) _]]]]]]]].
    - exfalso. eapply times_out_not_arrives;
        [exact Hto | eapply head_settles; exact Hhead | exact Hintime].
    - subst u. discriminate Hhead.
    - subst u. discriminate Hhead.
    - rewrite Hhead in Hu. injection Hu as <- <-. left. auto.
    - rewrite Hhead in Hu. injection Hu as <- <-. right. auto.
    - subst u. injection Hhead as <- <-.
      apply status_ok_spec in Hok. contradiction.
    - subst u. injection Hhead as <- <-.
      apply status_ok_spec in Hok. contradiction.
    - subst u. injection Hhead as <- <-.
      apply status_ok_spec in Hok. contradiction. }
  split.
  - intros Hr H304. destruct Hcases as [[_ E] | [Hc _]]; [exact E | ].
    exfalso. assert (K : carries_body st = true)
      by (apply carries_body_spec; lia). congruence.
  - intros Hbad. destruct Hcases as [[Hc _] | [_ E]]; [ | exact E].
    exfalso. apply carries_body_spec in Hc. lia.
Qed.

Lemma POST_upstream_error_witness :
  run_POST (Some hello) true (Responds 1200 503 None) =
    (Returned
       (mkNextResponse
          (assistant "Sorry, I encountered an error processing your request.")
          503),
     mkRuntime
       [EConsoleLog; ESetTimeout 290000;
        EFetch LLM_URL (JObj [(lit "message", JStr (lit "hello"))]);
        EClearTimeout; EAbort]
       None true).
Proof.
  refine (proj1 (@POST_upstream_error hello (JStr (lit "hello")) true
                   (Responds 1200 503 None) 1200 503
                   eq_refl eq_refl eq_refl (or_introl eq_refl) _) _ _).
  - intros [_ H]. apply H. reflexivity.
  - split; discriminate.
  - discriminate.
Defined.

(** C3, as stated, fails: when the external service answers 304, the
    handler does not answer with status 304: [NextResponse.json] refuses a
    body with that status, and the reply is the catch-all 500 with
    "Sorry, something went wrong. Please try again.". *)
Lemma POST_upstream_304_not_relayed :
  status_ok 304 = false
  /\ run_POST (Some hello) true (Responds 1200 304 None) =
       (Returned
          (mkNextResponse
             (assistant "Sorry, something went wrong. Please try again.") 500),
        mkRuntime
          [EConsoleLog; ESetTimeout 290000;
           EFetch LLM_URL (JObj [(lit "message", JStr (lit "hello"))]);
           EClearTimeout; EConsoleError; EAbort]
          None true)
  /\ res_status
       (mkNextResponse
          (assistant "Sorry, something went wrong. Please try again.") 500)
     <> 304%Z.
Proof. repeat split. discriminate. Qed.

(** With a truthy [message] and an answer of status 2xx whose body is
    JSON other than [null], the handler replies 200 with the content
    [data.response || data.message || 'No response received'] and with
    [data.urls]. *)
Lemma POST_success (req m data : json) tie t st :
  field req (lit "message") = Some m ->
  truthy (Some m) = true ->
  arrives tie t ->
  status_ok st = true ->
  data <> JNull ->
  run_POST (Some req) tie (Responds t st (Some data)) =
    (Returned
       (mkNextResponse
          (mkMessage (lit "assistant")
             (js_or (field data (lit "response"))
                (js_or (field data (lit "message"))
                   (Some (JStr (lit "No response received")))))
             (field data (lit "urls")))
          200),
     mkRuntime
       [EConsoleLog; ESetTimeout 290000;
        EFetch LLM_URL (JObj [(lit "message", on_wire m)]); EClearTimeout; EAbort]
       None true).
Proof.
  intros Hmsg Htruthy Hintime Hok Hdata.
  destruct (POST_forward_paths req tie (Responds t st (Some data)) Hmsg Htruthy)
    as [[Hto _] | [(t' & e & [=] & _) | [(t' & e & [=] & _)
       | [(t' & st' & [= <- <-] & _ & Hno & _)
       | [(t' & st' & [= <- <-] & _ & Hno & _)
       | [(t' & st' & b & [= <- <- <-] & _ & _ & Hb & _)
       | [(t' & st' & d & [= <- <- <-] & _ & _ & _ & E)
       | [(t' & st' & [=] & _) _]]]]]]]].
  - exfalso. eapply times_out_not_arrives;
      [exact Hto | reflexivity | exact Hintime].
  - congruence.
  - congruence.
  - destruct Hb as [Hb | Hb]; congruence.
  - exact E.
Qed.

(** C4 (amended): on an answer of status 2xx carrying a JSON body other
    than [null], the reply has status 200 and role "assistant"; its
    content is the [response] field when that field is truthy (for a
    string: non-empty), otherwise the [message] field when that one is
    truthy, otherwise the literal "No response received"; and its [urls]
    is the [urls] field of the body as received ([undefined], so left out,
    when the body has none). *)
Theorem POST_success_reply (req m data : json) (tie : bool) (t st : Z)
  (Hmsg : field req (lit "message") = Some m)
  (Htruthy : truthy (Some m) = true)
  (Hintime : arrives tie t)
  (Hok : status_ok st = true)
  (Hdata : data <> JNull) :
  exists r rt,
    run_POST (Some req) tie (Responds t st (Some data)) = (Returned r, rt)
    /\ res_status r = 200%Z
    /\ role (res_body r) = lit "assistant"
    /\ urls (res_body r) = field data (lit "urls")
    /\ (truthy (field data (lit "response")) = true ->
        content (res_body r) = field data (lit "response"))
    /\ (truthy (field data (lit "response")) = false ->
        truthy (field data (lit "message")) = true ->
        content (res_body r) = field data (lit "message"))
    /\ (truthy (field data (lit "response")) = false ->
        truthy (field data (lit "message")) = false ->
        content (res_body r) = Some (JStr (lit "No response received"))).
Proof.
  eexists; eexists; split;
    [ apply POST_success; eassumption | ].
  cbn [res_status res_body role urls content]. unfold js_or.
  repeat split; intros H1; try intros H2; rewrite ?H1, ?H2; reflexivity.
Qed.

Lemma POST_success_reply_witness :
  exists r rt,
    run_POST (Some hello) true
      (Responds 1200 200
         (Some (JObj [(lit "response", JStr (lit "hi there"))])))
    = (Returned r, rt)
    /\ res_status r = 200%Z
    /\ content (res_body r) = Some (JStr (lit "hi there"))
    /\ urls (res_body r) = None.
Proof.
  destruct (@POST_success_reply hello (JStr (lit "hello"))
              (JObj [(lit "response", JStr (lit "hi there"))]) true 1200 200
              eq_refl eq_refl (or_introl eq_refl) eq_refl)
    as (r & rt & E & Hst & _ & Hurls & Hresp & _).
  - discriminate.
  - exists r, rt. repeat split; auto.
Defined.

(** C4, as stated, fails: an external body whose [response] field is
    present and is the empty string is not used as-is; the reply's content
    is the [message] field instead. *)
Lemma POST_empty_response_replaced :
  field (JObj [(lit "response", JStr []); (lit "message", JStr (lit "hi"))])
        (lit "response") = Some (JStr [])
  /\ exists r rt,
       run_POST (Some hello) true
         (Responds 1200 200
            (Some (JObj [(lit "response", JStr []);
                         (lit "message", JStr (lit "hi"))])))
       = (Returned r, rt)
       /\ res_status r = 200%Z
       /\ content (res_body r) = Some (JStr (lit "hi"))
       /\ content (res_body r) <> Some (JStr []).
Proof.
  split; [reflexivity | ].
  eexists; eexists; split; [reflexivity | ].
  repeat split. discriminate.
Qed.

Lemma relayed_truthy (data : json) :
  truthy (content (relayed data)) = true.
Proof.
  unfold relayed, js_or. cbn [content].
  destruct (truthy (field data (lit "response"))) eqn:E1; [exact E1 | ].
  destruct (truthy (field data (lit "message"))) eqn:E2; [exact E2 | reflexivity].
Qed.

Lemma relayed_textual (data : json) :
  text_or_falsy (field data (lit "response"))
  && text_or_falsy (field data (lit "message")) = true ->
  is_string (content (relayed data)) = true.
Proof.
  unfold relayed, js_or, text_or_falsy. cbn [content].
  rewrite andb_true_iff, !orb_true_iff, !negb_true_iff. intros [H1 H2].
  destruct (truthy (field data (lit "response"))) eqn:E1.
  - destruct H1 as [H1 | H1]; [exact H1 | discriminate H1].
  - destruct (truthy (field data (lit "message"))) eqn:E2; [ | reflexivity].
    destruct H2 as [H2 | H2]; [exact H2 | discriminate H2].
Qed.

(** What an invocation comes to: it is left waiting, on the one path where
    that can happen, or it returns a reply of role "assistant" with a
    truthy content, a string wherever the reply is not the 200 of the
    success branch. *)
Lemma POST_outcomes (request : option json) tie u :
  (stalled tie u /\ exists rt, run_POST request tie u = (Pending, rt))
  \/ exists r rt,
       run_POST request tie u = (Returned r, rt)
       /\ role (res_body r) = lit "assistant"
       /\ truthy (content (res_body r)) = true
       /\ (res_status r <> 200%Z -> is_string (content (res_body r)) = true)
       /\ (textual u = true -> is_string (content (res_body r)) = true).
Proof.
  destruct (POST_paths request tie u)
    as [[_ E] | [(req & -> & _ & _ & E) | (req & m & -> & Hm & Ht)]].
  - right. rewrite E. eexists; eexists. split; [reflexivity | ]. repeat split.
  - right. rewrite E. eexists; eexists. split; [reflexivity | ]. repeat split.
  - destruct (POST_forward_paths req tie u Hm Ht)
      as [[_ E] | [(t & e & _ & _ & _ & E) | [(t & e & _ & _ & _ & E)
         | [(t & st & _ & _ & _ & _ & E) | [(t & st & _ & _ & _ & _ & E)
         | [(t & st & b & _ & _ & _ & _ & E)
         | [(t & st & d & Hu & _ & _ & _ & E) | [Hs E]]]]]]]].
    1-6: right; rewrite E; eexists; eexists; (split; [reflexivity | ]);
         repeat split.
    + right. rewrite E. eexists; eexists. split; [reflexivity | ].
      cbn [res_body res_status]. split; [reflexivity | ].
      split; [apply relayed_truthy | ]. split; [intros H; now contradiction H | ].
      subst u. cbn [textual]. apply relayed_textual.
    + left. split; [exact Hs | eauto].
Qed.

(** C5 (amended): every reply of the handler, whatever the request and
    whatever the external service does, has role "assistant", in the reply
    object and in the body as sent, and the content of the reply object is
    truthy; the content is a string, sent as it is, on every branch but the
    success branch (status 200), and there too provided the [response] and
    [message] fields of the external service's JSON answer are strings
    whenever they are truthy.  The handler never throws; it gives no reply
    only when it is left waiting: a 2xx head arrived in time and its body
    never completes. *)
Theorem POST_reply_shape (request : option json) (tie : bool) (u : upstream) :
  (stalled tie u /\ fst (run_POST request tie u) = Pending)
  \/ exists r rt,
       run_POST request tie u = (Returned r, rt)
       /\ role (res_body r) = lit "assistant"
       /\ field (wire (res_body r)) (lit "role") = Some (JStr (lit "assistant"))
       /\ truthy (content (res_body r)) = true
       /\ (res_status r <> 200%Z ->
           is_string (content (res_body r)) = true
           /\ field (wire (res_body r)) (lit "content") = content (res_body r))
       /\ (textual u = true ->
           is_string (content (res_body r)) = true
           /\ field (wire (res_body r)) (lit "content") = content (res_body r)).
Proof.
  destruct (POST_outcomes request tie u)
    as [[Hs [rt E]] | (r & rt & E & Hr & Ht & Hn & Hx)].
  - left. rewrite E. auto.
  - right. exists r, rt. destruct (wire_fields (res_body r)) as (W1 & W2 & _).
    assert (Hsent : is_string (content (res_body r)) = true ->
                    field (wire (res_body r)) (lit "content")
                    = content (res_body r)).
    { intros H. rewrite W2.
      destruct (content (res_body r)) as [[] | ]; try discriminate H.
      reflexivity. }
    repeat split; auto.
    rewrite W1, Hr. reflexivity.
Qed.

Lemma POST_reply_shape_witness :
  exists r rt,
    run_POST (Some hello) true
      (Responds 1200 200
         (Some (JObj [(lit "message", JStr (lit "hi there"))])))
    = (Returned r, rt)
    /\ role (res_body r) = lit "assistant"
    /\ is_string (content (res_body r)) = true.
Proof.
  destruct (POST_reply_shape (Some hello) true
              (Responds 1200 200
                 (Some (JObj [(lit "message", JStr (lit "hi there"))]))))
    as [[_ E] | (r & rt & E & Hr & _ & _ & _ & Hx)].
  - discriminate E.
  - exists r, rt. repeat split; auto. apply (proj1 (Hx eq_refl)).
Defined.

(** C5, as stated, fails: when the external service answers 200 with a
    [response] that is a number, the reply's content is that number, not a
    string. *)
Lemma POST_content_not_a_string :
  exists r rt,
    run_POST (Some hello) true
      (Responds 1200 200 (Some (JObj [(lit "response", JNum 42)])))
    = (Returned r, rt)
    /\ role (res_body r) = lit "assistant"
    /\ content (res_body r) = Some (JNum 42)
    /\ is_string (content (res_body r)) = false.
Proof. repeat eexists. Qed.

End RouteFacts.
(** ** The chat page *)

Section StringFacts.
Import Js Page Terms.

Lemma trimStart_white (s : jsstring) :
  forallb is_white_space s = true -> trimStart s = [].
Proof.
  induction s as [| c s IH]; cbn [forallb trimStart]; [reflexivity | ].
  intros H. apply andb_true_iff in H as [Hc Hs]. rewrite Hc. auto.
Qed.

Lemma trim_white (s : jsstring) :
  forallb is_white_space s = true -> trim s = [].
Proof.
  intros H. unfold trim. rewrite (trimStart_white s H). reflexivity.
Qed.

Lemma startsWith_spec (p s : jsstring) :
  startsWith s p = true <-> exists after, s = p ++ after.
Proof.
  revert s. induction p as [| x p IH]; intros s.
  - destruct s; cbn; split; eauto.
  - destruct s as [| y s]; cbn [startsWith].
    + split; [discriminate | intros [a E]; discriminate E].
    + rewrite andb_true_iff, N.eqb_eq, IH. split.
      * intros [-> [a ->]]. exists a. reflexivity.
      * intros [a E]. injection E as -> ->. eauto.
Qed.

Lemma includes_spec (p s : jsstring) :
  includes s p = true <-> occurs p s.
Proof.
  unfold occurs. induction s as [| c s IH].
  - cbn [includes]. rewrite orb_false_r, startsWith_spec. split.
    + intros [a E]. exists [], a. exact E.
    + intros [b [a E]]. destruct b; [eauto | discriminate E].
  - cbn [includes]. rewrite orb_true_iff, startsWith_spec, IH. split.
    + intros [[a E] | [b [a E]]].
      * exists [], a. exact E.
      * exists (c :: b), a. rewrite E. reflexivity.
    + intros [b [a E]]. destruct b as [| c' b]; [left; eauto | right].
      injection E as _ ->. eauto.
Qed.

Lemma includes_false (p s : jsstring) :
  includes s p = false <-> ~ occurs p s.
Proof.
  rewrite <- includes_spec. destruct (includes s p); split; congruence.
Qed.

(** C8 (amended): the label is decided by containment anywhere in the URL
    (case-sensitive), the [.pdf] test first: a URL in which [.pdf] occurs
    is labelled "PDF Document"; a URL in which [.pdf] does not occur and
    [.doc] does is labelled "Word Document"; a URL in which neither occurs
    is labelled "Document". *)
Theorem document_type_by_containment (url : jsstring) :
  (occurs (lit ".pdf") url -> document_type url = lit "PDF Document")
  /\ (~ occurs (lit ".pdf") url -> occurs (lit ".doc") url ->
      document_type url = lit "Word Document")
  /\ (~ occurs (lit ".pdf") url -> ~ occurs (lit ".doc") url ->
      document_type url = lit "Document").
Proof.
  unfold document_type. repeat split.
  - intros H. apply includes_spec in H. rewrite H. reflexivity.
  - intros H1 H2. apply includes_false in H1. apply includes_spec in H2.
    rewrite H1, H2. reflexivity.
  - intros H1 H2. apply includes_false in H1, H2.
    rewrite H1, H2. reflexivity.
Qed.

Lemma document_type_by_containment_witness :
  document_type (lit "https://x/my-file_name.pdf") = lit "PDF Document"
  /\ document_type (lit "https://x/letter.docx") = lit "Word Document"
  /\ document_type (lit "https://x/picture.png") = lit "Document".
Proof.
  split; [ | split ].
  - apply (proj1 (document_type_by_containment (lit "https://x/my-file_name.pdf"))).
    apply includes_spec. reflexivity.
  - apply (proj1 (proj2 (document_type_by_containment (lit "https://x/letter.docx")))).
    + apply includes_false. reflexivity.
    + apply includes_spec. reflexivity.
  - apply (proj2 (proj2 (document_type_by_containment (lit "https://x/picture.png")))).
    + apply includes_false. reflexivity.
    + apply includes_false. reflexivity.
Defined.

(** C8, as stated, fails: a URL in which [.doc] occurs is not labelled
    "Word Document" when [.pdf] occurs in it too. *)
Lemma document_type_doc_labelled_pdf :
  occurs (lit ".doc") (lit "https://x/minutes.doc.pdf")
  /\ document_type (lit "https://x/minutes.doc.pdf") = lit "PDF Document"
  /\ document_type (lit "https://x/minutes.doc.pdf") <> lit "Word Document".
Proof.
  split; [apply includes_spec; reflexivity | ].
  split; [reflexivity | discriminate].
Qed.

(** The label does not go by the end of the URL: [.pdf] in the middle of
    a URL that ends otherwise still gives "PDF Document". *)
Lemma document_type_not_by_suffix :
  ~ ends_with (lit ".pdf") (lit "https://x/a.pdf?page=2")
  /\ document_type (lit "https://x/a.pdf?page=2") = lit "PDF Document".
Proof.
  split; [ | reflexivity].
  intros [b E]. apply (f_equal (@rev N)) in E.
  rewrite rev_app_distr in E. discriminate E.
Qed.

End StringFacts.

Section PageFacts.
Import Js Page Terms.

Ltac unfold_page :=
  cbv [handleSubmit sendMessageToAPI fetch emit setError setLoading
       setMessages setInputValue try_finally try_catch bind parse_json
       modify gets throw ret negb object_literal];
  cbn [page events messages inputValue isSidebarOpen loading error fst snd].

Lemma calls_app (b : browser) (es : list event) :
  calls (mkBrowser (page b) (events b ++ es)) = calls b ++ List.filter is_call es.
Proof. unfold calls. cbn [events]. apply filter_app. Qed.

Lemma trim_truthy (s : jsstring) :
  trim s <> [] -> truthy (Some (JStr (trim s))) = true.
Proof. cbn [truthy]. destruct (trim s); congruence. Qed.

(** C6: when the input is empty or all white space, submitting changes
    nothing: the component state (transcript, input, loading flag, error
    banner) is as before and no call to the route is made; the handler
    only cancels the form's default action. *)
Theorem handleSubmit_blank_input (srv : api) (b : browser)
  (Hblank : forallb is_white_space (inputValue (page b)) = true) :
  handleSubmit srv b =
    (Returned tt, mkBrowser (page b) (events b ++ [EPreventDefault]))
  /\ page (snd (handleSubmit srv b)) = page b
  /\ calls (snd (handleSubmit srv b)) = calls b.
Proof.
  assert (E : handleSubmit srv b =
              (Returned tt, mkBrowser (page b) (events b ++ [EPreventDefault]))).
  { unfold_page. rewrite (trim_white _ Hblank). reflexivity. }
  rewrite E. repeat split.
  cbn [snd]. rewrite calls_app. apply app_nil_r.
Qed.

Lemma handleSubmit_blank_input_witness :
  handleSubmit (fun _ => Unreachable)
    (mkBrowser (mkChatPage [] [32; 9; 10; 160]%N false false None) []) =
    (Returned tt,
     mkBrowser (mkChatPage [] [32; 9; 10; 160]%N false false None)
               [EPreventDefault])
  /\ page (snd (handleSubmit (fun _ => Unreachable)
            (mkBrowser (mkChatPage [] [32; 9; 10; 160]%N false false None) [])))
     = mkChatPage [] [32; 9; 10; 160]%N false false None
  /\ calls (snd (handleSubmit (fun _ => Unreachable)
             (mkBrowser (mkChatPage [] [32; 9; 10; 160]%N false false None) [])))
     = [].
Proof.
  apply (@handleSubmit_blank_input (fun _ => Unreachable)
           (mkBrowser (mkChatPage [] [32; 9; 10; 160]%N false false None) [])).
  reflexivity.
Defined.

(** While the call to the route is unanswered the user's message is
    already in the transcript, the input is cleared and [loading] is set. *)
Lemma handleSubmit_pending (srv : api) (b : browser) :
  trim (inputValue (page b)) <> [] ->
  srv (request_for (inputValue (page b))) = Unanswered ->
  handleSubmit srv b =
    (Pending,
     mkBrowser
       (mkChatPage
          (messages (page b) ++ [userMessage (inputValue (page b))]) []
          (isSidebarOpen (page b)) true None)
       ((events b ++ [EPreventDefault])
        ++ [EFetchApi (lit "/api/chat") (request_for (inputValue (page b)))])).
Proof.
  intros Hin Hsrv. unfold_page. rewrite (trim_truthy _ Hin).
  fold (request_for (inputValue (page b))). rewrite Hsrv. reflexivity.
Qed.

(** An answer of status 2xx with a JSON body is appended as it is. *)
Lemma handleSubmit_answered (srv : api) (b : browser) st d :
  trim (inputValue (page b)) <> [] ->
  srv (request_for (inputValue (page b))) = Answered st (Some d) ->
  status_ok st = true ->
  handleSubmit srv b =
    (Returned tt,
     mkBrowser
       (mkChatPage
          ((messages (page b) ++ [userMessage (inputValue (page b))]) ++ [d]) []
          (isSidebarOpen (page b)) false None)
       ((events b ++ [EPreventDefault])
        ++ [EFetchApi (lit "/api/chat") (request_for (inputValue (page b)))])).
Proof.
  intros Hin Hsrv Hok. unfold_page. rewrite (trim_truthy _ Hin).
  fold (request_for (inputValue (page b))). rewrite Hsrv.
  unfold_page. rewrite Hok. reflexivity.
Qed.

(** Any other settled call leaves the banner and appends nothing. *)
Lemma handleSubmit_rejected (srv : api) (b : browser) :
  trim (inputValue (page b)) <> [] ->
  (failed (srv (request_for (inputValue (page b))))
   \/ exists st, srv (request_for (inputValue (page b))) = Answered st None) ->
  handleSubmit srv b =
    (Returned tt,
     mkBrowser
       (mkChatPage
          (messages (page b) ++ [userMessage (inputValue (page b))]) []
          (isSidebarOpen (page b)) false
          (Some (lit "Failed to get response. Please try again.")))
       ((((events b ++ [EPreventDefault])
          ++ [EFetchApi (lit "/api/chat") (request_for (inputValue (page b)))])
         ++ [EConsoleError]) ++ [EConsoleError])).
Proof.
  intros Hin Hsrv. unfold_page. rewrite (trim_truthy _ Hin).
  fold (request_for (inputValue (page b))).
  destruct Hsrv as [Hf | [st Hs]].
  - destruct (srv (request_for (inputValue (page b)))) as [st body | | ];
      cbn [failed] in Hf; [ | reflexivity | contradiction ].
    unfold_page. rewrite Hf. reflexivity.
  - rewrite Hs. unfold_page. destruct (status_ok st); reflexivity.
Qed.

Ltac calls_of_events :=
  unfold calls; cbn [events]; rewrite ?filter_app; cbn [filter is_call];
  rewrite ?app_nil_r; reflexivity.

(** C7 (amended): when the input is non-empty after trimming, submitting
    appends exactly one user message, whose content is the input text as
    typed (white space around it included, not the trimmed text), and
    makes exactly one call to the route, carrying that same untrimmed
    text; after the user's message the transcript gains at most the
    route's answer, and only when the call was answered with a 2xx status
    and a JSON body. *)
Theorem handleSubmit_sends_input (srv : api) (b : browser)
  (Hinput : trim (inputValue (page b)) <> []) :
  exists o b' answer,
    handleSubmit srv b = (o, b')
    /\ messages (page b') =
         messages (page b) ++ userMessage (inputValue (page b)) :: answer
    /\ (answer = [] \/
        exists st d,
          srv (request_for (inputValue (page b))) = Answered st (Some d)
          /\ status_ok st = true /\ answer = [d])
    /\ calls b' =
         calls b
         ++ [EFetchApi (lit "/api/chat") (request_for (inputValue (page b)))].
Proof.
  destruct (srv (request_for (inputValue (page b))))
    as [st [d |] | | ] eqn:Hsrv.
  - destruct (status_ok st) eqn:Hok.
    + rewrite (handleSubmit_answered srv b Hinput Hsrv Hok).
      eexists; eexists; exists [d]. split; [reflexivity | ].
      cbn [page messages]. rewrite <- app_assoc.
      split; [reflexivity | ]. split; [right; eauto | calls_of_events].
    + rewrite (@handleSubmit_rejected srv b Hinput)
        by (left; rewrite Hsrv; exact Hok).
      eexists; eexists; exists []. split; [reflexivity | ].
      split; [reflexivity | ]. split; [now left | calls_of_events].
  - rewrite (@handleSubmit_rejected srv b Hinput) by (right; eauto).
    eexists; eexists; exists []. split; [reflexivity | ].
    split; [reflexivity | ]. split; [now left | calls_of_events].
  - rewrite (@handleSubmit_rejected srv b Hinput)
      by (left; rewrite Hsrv; exact I).
    eexists; eexists; exists []. split; [reflexivity | ].
    split; [reflexivity | ]. split; [now left | calls_of_events].
  - rewrite (handleSubmit_pending srv b Hinput Hsrv).
    eexists; eexists; exists []. split; [reflexivity | ].
    split; [reflexivity | ]. split; [now left | calls_of_events].
Qed.

Lemma handleSubmit_sends_input_witness :
  exists o b' answer,
    handleSubmit (fun _ => Unanswered)
      (mkBrowser (mkChatPage [] (lit "hello") false false None) []) = (o, b')
    /\ messages (page b') = userMessage (lit "hello") :: answer
    /\ calls b' = [EFetchApi (lit "/api/chat") (request_for (lit "hello"))].
Proof.
  destruct (@handleSubmit_sends_input (fun _ => Unanswered)
              (mkBrowser (mkChatPage [] (lit "hello") false false None) []))
    as (o & b' & answer & E & Hm & _ & Hc).
  - discriminate.
  - exists o, b', answer. auto.
Defined.

(** C7, as stated, fails: for the input " hi " the appended message and
    the request both carry " hi ", not the trimmed text "hi". *)
Lemma handleSubmit_does_not_trim :
  trim (lit " hi ") = lit "hi"
  /\ messages (page (snd (handleSubmit (fun _ => Unanswered)
       (mkBrowser (mkChatPage [] (lit " hi ") false false None) []))))
     = [userMessage (lit " hi ")]
  /\ userMessage (lit " hi ") <> userMessage (trim (lit " hi "))
  /\ calls (snd (handleSubmit (fun _ => Unanswered)
       (mkBrowser (mkChatPage [] (lit " hi ") false false None) [])))
     = [EFetchApi (lit "/api/chat") (request_for (lit " hi "))]
  /\ request_for (lit " hi ") <> request_for (trim (lit " hi ")).
Proof.
  split; [reflexivity | ]. split; [reflexivity | ].
  split; [discriminate | ]. split; [reflexivity | discriminate].
Qed.

(** C9 (amended): when the call to the route is answered with a
    non-success status, whatever its body (an assistant-shaped failure
    message included), or is not answered because the route is
    unreachable, the page appends nothing after the user's message: it
    shows the banner "Failed to get response. Please try again." and
    clears [loading]. *)
Theorem handleSubmit_failed_call (srv : api) (b : browser)
  (Hinput : trim (inputValue (page b)) <> [])
  (Hfail : failed (srv (request_for (inputValue (page b))))) :
  exists b',
    handleSubmit srv b = (Returned tt, b')
    /\ messages (page b') =
         messages (page b) ++ [userMessage (inputValue (page b))]
    /\ error (page b') = Some (lit "Failed to get response. Please try again.")
    /\ loading (page b') = false.
Proof.
  rewrite (@handleSubmit_rejected srv b Hinput) by (left; exact Hfail).
  eexists. split; [reflexivity | ]. repeat split.
Qed.

Lemma handleSubmit_failed_call_witness :
  exists b',
    handleSubmit
      (fun _ => Answered 503
         (Some (Route.wire
            (Route.assistant
               "Sorry, I encountered an error processing your request."))))
      (mkBrowser (mkChatPage [] (lit "hello") false false None) [])
    = (Returned tt, b')
    /\ messages (page b') = [userMessage (lit "hello")]
    /\ error (page b') = Some (lit "Failed to get response. Please try again.")
    /\ loading (page b') = false.
Proof.
  apply (@handleSubmit_failed_call
           (fun _ => Answered 503
              (Some (Route.wire
                 (Route.assistant
                    "Sorry, I encountered an error processing your request."))))
           (mkBrowser (mkChatPage [] (lit "hello") false false None) [])).
  - discriminate.
  - reflexivity.
Defined.

(** C9, as stated, fails: when the external service stays silent the
    route answers 408 with the assistant-shaped time-out message, and the
    page, sent "hello", does not append that message: the transcript holds
    the user's message alone and the banner is shown. *)
Lemma timeout_reply_not_appended :
  served true Route.Silent hello =
    Answered 408
      (Some (Route.wire
         (Route.assistant "Sorry, the request timed out. Please try again.")))
  /\ exists b',
       handleSubmit (served true Route.Silent)
         (mkBrowser (mkChatPage [] (lit "hello") false false None) [])
       = (Returned tt, b')
       /\ messages (page b') = [userMessage (lit "hello")]
       /\ ~ In (Route.wire
                  (Route.assistant
                     "Sorry, the request timed out. Please try again."))
               (messages (page b'))
       /\ error (page b')
          = Some (lit "Failed to get response. Please try again.").
Proof.
  split; [reflexivity | ].
  eexists. split; [reflexivity | ]. cbn [page messages error].
  split; [reflexivity | ]. split; [ | reflexivity].
  intros [H | []]. discriminate H.
Qed.

End PageFacts.

(** ** Further properties of the proxy route *)

Section RouteMore.
Import Js Route Terms Terms2.

(** X1: an invocation never makes more than one outbound call; a call that
    is made goes to the fixed endpoint and carries [{message: m}] with [m]
    the request's [message] value as [JSON.stringify] writes it (a number
    that is not finite becomes [null], at any depth; any other value is
    sent as received); and a request with a truthy [message] always leads
    to one call, whatever the external service then does. *)
Theorem POST_calls_once (request : option json) (tie : bool) (u : upstream) :
  (List.length (outbound (snd (run_POST request tie u))) <= 1)%nat
  /\ (forall url body,
        In (EFetch url body) (trace (snd (run_POST request tie u))) ->
        url = LLM_URL /\
        exists req m,
          request = Some req /\ field req (lit "message") = Some m /\
          truthy (Some m) = true /\ body = JObj [(lit "message", on_wire m)])
  /\ (forall req,
        request = Some req -> truthy (field req (lit "message")) = true ->
        List.length (outbound (snd (run_POST request tie u))) = 1%nat).
Proof.
  destruct (POST_paths request tie u)
    as [[Hreq E] | [(req & -> & _ & Hf & E) | (req & m & -> & Hm & Ht)]].
  - rewrite E. cbn [snd trace]. split; [cbn; lia | ]. split.
    + intros url body [H | [H | []]]; discriminate H.
    + intros req -> H. destruct Hreq as [Hreq | [= ->]]; [discriminate Hreq | ].
      discriminate H.
  - rewrite E. cbn [snd trace]. split; [cbn; lia | ]. split.
    + intros url body [H | []]; discriminate H.
    + intros req' [= <-] H. congruence.
  - assert (Hcall : exists o tail tm ab,
              run_POST (Some req) tie u =
                (o, mkRuntime (forwarded m ++ tail) tm ab)
              /\ List.filter is_fetch tail = []
              /\ forall url body, ~ In (EFetch url body) tail).
    { destruct (POST_forward_paths req tie u Hm Ht)
        as [[_ E] | [(t & e & _ & _ & _ & E) | [(t & e & _ & _ & _ & E)
           | [(t & st & _ & _ & _ & _ & E) | [(t & st & _ & _ & _ & _ & E)
           | [(t & st & b & _ & _ & _ & _ & E)
           | [(t & st & d & _ & _ & _ & _ & E) | [_ E]]]]]]]];
        (do 4 eexists; split; [exact E | ];
         split; [reflexivity | ];
         intros url body H; cbn in H;
         repeat (destruct H as [H | H]; [discriminate H | ]); exact H). }
    destruct Hcall as (o & tail & tm & ab & E & Hnone & Hnot). rewrite E.
    cbn [snd]. unfold outbound. cbn [trace].
    rewrite filter_app, Hnone, app_nil_r. split; [cbn; lia | ]. split.
    + intros url body H. apply in_app_or in H as [H | H];
        [ | exfalso; exact (Hnot _ _ H)].
      cbn in H. destruct H as [H | [H | [H | []]]]; try discriminate H.
      injection H as <- <-. split; [reflexivity | ]. exists req, m. auto.
    + intros _ _ _. reflexivity.
Qed.

(** X2: whenever the handler returns, the controller is aborted and the
    [controller.abort()] of the [finally] block is the last thing the
    invocation did.  It fails to return on one path only: a 2xx head
    arrives in time, the timer is cleared, and the body never completes;
    there the [finally] block is not reached and nothing aborts the call. *)
Theorem POST_aborts_last (request : option json) (tie : bool) (u : upstream) :
  (stalled tie u
   /\ exists m,
        run_POST request tie u =
          (Pending, mkRuntime (forwarded m ++ [EClearTimeout]) None false))
  \/ exists r rt before,
       run_POST request tie u = (Returned r, rt)
       /\ aborted rt = true
       /\ trace rt = before ++ [EAbort].
Proof.
  destruct (POST_paths request tie u)
    as [[_ E] | [(req & -> & _ & _ & E) | (req & m & -> & Hm & Ht)]].
  - right. rewrite E. eexists; eexists; exists [EConsoleError]. repeat split.
  - right. rewrite E. eexists; eexists; exists []. repeat split.
  - destruct (POST_forward_paths req tie u Hm Ht)
      as [[_ E] | [(t & e & _ & _ & _ & E) | [(t & e & _ & _ & _ & E)
         | [(t & st & _ & _ & _ & _ & E) | [(t & st & _ & _ & _ & _ & E)
         | [(t & st & b & _ & _ & _ & _ & E)
         | [(t & st & d & _ & _ & _ & _ & E) | [Hs E]]]]]]]];
      [right; rewrite E; eexists; eexists .. | left; split; [exact Hs | eauto]].
    + exists (forwarded m ++ [EAbort]). rewrite <- app_assoc. repeat split.
    + exists (forwarded m). repeat split.
    + exists (forwarded m ++ [EConsoleError]). rewrite <- app_assoc. repeat split.
    + exists (forwarded m ++ [EClearTimeout]). rewrite <- app_assoc. repeat split.
    + exists (forwarded m ++ [EClearTimeout; EConsoleError]).
      rewrite <- app_assoc. repeat split.
    + exists (forwarded m ++ [EClearTimeout; EConsoleError]).
      rewrite <- app_assoc. repeat split.
    + exists (forwarded m ++ [EClearTimeout]). rewrite <- app_assoc. repeat split.
Qed.

(** X3: when the outbound call is rejected before the deadline by an error
    that is not an [AbortError] (a network failure), the handler answers
    500 with "Sorry, something went wrong. Please try again."; on this path
    [clearTimeout] is never reached, so the deadline timer is left pending. *)
Theorem POST_network_failure (req m : json) (tie : bool) (t : Z) (e : exn)
  (Hmsg : field req (lit "message") = Some m)
  (Htruthy : truthy (Some m) = true)
  (Hintime : arrives tie t)
  (Herr : abort_like e = false) :
  run_POST (Some req) tie (Fails t e) =
    (Returned (mkNextResponse went_wrong 500),
     mkRuntime (forwarded m ++ [EConsoleError; EAbort]) (Some deadline) true)
  /\ ~ In EClearTimeout (trace (snd (run_POST (Some req) tie (Fails t e)))).
Proof.
  destruct (POST_forward_paths req tie (Fails t e) Hmsg Htruthy)
    as [[Hto _] | [(t' & e' & [= <- <-] & _ & Hab & _)
       | [(t' & e' & _ & _ & _ & E)
       | [(t' & st & [=] & _) | [(t' & st & [=] & _)
       | [(t' & st & b & [=] & _) | [(t' & st & d & [=] & _)
       | [(t' & st & [=] & _) _]]]]]]]].
  - exfalso. eapply times_out_not_arrives;
      [exact Hto | reflexivity | exact Hintime].
  - congruence.
  - rewrite E. split; [reflexivity | ]. cbn.
    intros H. repeat (destruct H as [H | H]; [discriminate H | ]). exact H.
Qed.

Lemma POST_network_failure_witness :
  run_POST (Some hello) true (Fails 35 TypeError) =
    (Returned (mkNextResponse went_wrong 500),
     mkRuntime (forwarded (JStr (lit "hello")) ++ [EConsoleError; EAbort])
               (Some deadline) true)
  /\ ~ In EClearTimeout (trace (snd (run_POST (Some hello) true (Fails 35 TypeError)))).
Proof.
  apply (@POST_network_failure hello (JStr (lit "hello")) true 35 TypeError);
    [reflexivity | reflexivity | left; reflexivity | reflexivity].
Defined.

(** X4: when the external service answers in time with a 2xx status but
    its body is not JSON, or is the JSON [null], the handler answers 500
    with "Sorry, something went wrong. Please try again.". *)
Theorem POST_unreadable_answer (req m : json) (tie : bool) (t st : Z)
  (body : option json)
  (Hmsg : field req (lit "message") = Some m)
  (Htruthy : truthy (Some m) = true)
  (Hintime : arrives tie t)
  (Hok : status_ok st = true)
  (Hbody : body = None \/ body = Some JNull) :
  run_POST (Some req) tie (Responds t st body) =
    (Returned (mkNextResponse went_wrong 500),
     mkRuntime (forwarded m ++ [EClearTimeout; EConsoleError; EAbort]) None true).
Proof.
  destruct (POST_forward_paths req tie (Responds t st body) Hmsg Htruthy)
    as [[Hto _] | [(t' & e' & [=] & _) | [(t' & e' & [=] & _)
       | [(t' & st' & [= <- <-] & _ & Hno & _)
       | [(t' & st' & [= <- <-] & _ & Hno & _)
       | [(t' & st' & b & _ & _ & _ & _ & E)
       | [(t' & st' & d & [= <- <- Hd] & _ & _ & Hnn & _)
       | [(t' & st' & [=] & _) _]]]]]]]].
  - exfalso. eapply times_out_not_arrives;
      [exact Hto | reflexivity | exact Hintime].
  - congruence.
  - congruence.
  - exact E.
  - destruct Hbody as [-> | ->]; congruence.
Qed.

Lemma POST_unreadable_answer_witness :
  run_POST (Some hello) true (Responds 35 200 None) =
    (Returned (mkNextResponse went_wrong 500),
     mkRuntime (forwarded (JStr (lit "hello"))
                ++ [EClearTimeout; EConsoleError; EAbort]) None true).
Proof.
  apply (@POST_unreadable_answer hello (JStr (lit "hello")) true 35 200 None);
    [reflexivity | reflexivity | left; reflexivity | reflexivity | now left].
Defined.

(** X5: the handler never throws, and every reply it gives is one of
    five: 400 with "No message provided"; 408 with the time-out text; 500
    with the something-went-wrong text; the external service's own non-2xx
    status (one that a reply can carry) with the error-processing text; or
    200 with the content and urls taken from a 2xx JSON answer of the
    external service.  It gives no reply only when it is left waiting for
    a body that never completes. *)
Theorem POST_replies (request : option json) (tie : bool) (u : upstream) :
  (stalled tie u /\ fst (run_POST request tie u) = Pending)
  \/ exists r rt,
       run_POST request tie u = (Returned r, rt)
       /\ (r = mkNextResponse no_message 400
           \/ r = mkNextResponse timed_out 408
           \/ r = mkNextResponse went_wrong 500
           \/ (exists t st,
                 head_of u = Some (t, st) /\ status_ok st = false /\
                 carries_body st = true /\
                 r = mkNextResponse upstream_error st)
           \/ (exists t st data,
                 u = Responds t st (Some data) /\ status_ok st = true /\
                 r = mkNextResponse (relayed data) 200)).
Proof.
  destruct (POST_paths request tie u)
    as [[_ E] | [(req & -> & _ & _ & E) | (req & m & -> & Hm & Ht)]].
  - right. rewrite E. eexists; eexists; split; [reflexivity | auto].
  - right. rewrite E. eexists; eexists; split; [reflexivity | auto].
  - destruct (POST_forward_paths req tie u Hm Ht)
      as [[_ E] | [(t & e & _ & _ & _ & E) | [(t & e & _ & _ & _ & E)
         | [(t & st & Hu & _ & Hno & Hc & E) | [(t & st & _ & _ & _ & _ & E)
         | [(t & st & b & _ & _ & _ & _ & E)
         | [(t & st & d & Hu & _ & Hok & _ & E) | [Hs E]]]]]]]];
      [right; rewrite E; eexists; eexists; (split; [reflexivity | ]); auto ..
      | left; rewrite E; auto].
    + do 3 right. left. exists t, st. auto.
    + do 4 right. exists t, st, d. auto.
Qed.

End RouteMore.
(** ** Document titles and downloads *)

Section DocsFacts.
Import Js Page Docs Terms Terms2.
Local Open Scope N_scope.

Variable upper : N -> jsstring.

Lemma split_not_nil sep s : split sep s <> [].
Proof.
  destruct s as [| c s]; cbn [split]; [discriminate | ].
  destruct (c =? sep); [discriminate | ].
  destruct (split sep s); discriminate.
Qed.

Lemma split_app sep p q :
  split sep (p ++ sep :: q) = split sep p ++ split sep q.
Proof.
  induction p as [| c p IH]; cbn [app split].
  - rewrite N.eqb_refl. reflexivity.
  - rewrite IH. destruct (c =? sep); [reflexivity | ].
    destruct (split sep p) eqn:E; [ | reflexivity].
    exfalso. exact (split_not_nil sep p E).
Qed.

Lemma split_none sep s :
  forallb (fun c => negb (c =? sep)) s = true -> split sep s = [s].
Proof.
  induction s as [| c s IH]; cbn [forallb split]; [reflexivity | ].
  intros H. apply andb_true_iff in H as [Hc Hs].
  apply negb_true_iff in Hc. rewrite Hc, (IH Hs). reflexivity.
Qed.

Lemma split_last_piece sep a b :
  forallb (fun c => negb (c =? sep)) b = true ->
  exists init w,
    split sep a = init ++ [w] /\ split sep (a ++ b) = init ++ [w ++ b].
Proof.
  intros Hb. induction a as [| c a (init & w & E1 & E2)].
  - exists [], []. cbn [app]. split; [reflexivity | apply split_none, Hb].
  - cbn [app split]. rewrite E1, E2. destruct (c =? sep).
    + exists ([] :: init), w. split; reflexivity.
    + destruct init as [| i init]; cbn [app].
      * exists [], (c :: w). split; reflexivity.
      * exists ((c :: i) :: init), w. split; reflexivity.
Qed.

Lemma pop_app a b : b <> [] -> pop (a ++ b) = pop b.
Proof.
  intros Hb. induction a as [| w a IH]; [reflexivity | ].
  cbn [app pop]. destruct (a ++ b) eqn:E; [ | exact IH].
  destruct a; [contradiction | discriminate E].
Qed.

Lemma pop_last a w : pop (a ++ [w]) = Some w.
Proof. rewrite pop_app by discriminate. reflexivity. Qed.

Lemma pop_in a w : pop a = Some w -> In w a.
Proof.
  induction a as [| x a IH]; cbn [pop]; [discriminate | ].
  destruct a; [intros [= ->]; now left | intros H; right; exact (IH H)].
Qed.

Lemma split_pieces sep s w c : In w (split sep s) -> In c w -> In c s.
Proof.
  revert w. induction s as [| x s IH]; cbn [split]; intros w Hw Hc.
  - destruct Hw as [<- | []]. exact Hc.
  - destruct (x =? sep).
    + destruct Hw as [<- | Hw]; [destruct Hc | right; eauto].
    + destruct (split sep s) as [| w0 ws] eqn:E.
      * destruct Hw as [<- | []]. destruct Hc as [<- | []]. now left.
      * destruct Hw as [<- | Hw].
        -- destruct Hc as [<- | Hc]; [now left | right].
           apply (IH w0); [now left | exact Hc].
        -- right. apply (IH w); [now right | exact Hc].
Qed.

Lemma split_no_sep sep s w : In w (split sep s) -> ~ In sep w.
Proof.
  revert w. induction s as [| x s IH]; cbn [split]; intros w Hw.
  - destruct Hw as [<- | []]. intros [].
  - destruct (x =? sep) eqn:Ex.
    + destruct Hw as [<- | Hw]; [intros [] | eauto].
    + destruct (split sep s) as [| w0 ws] eqn:E.
      * destruct Hw as [<- | []]. intros [-> | []].
        rewrite N.eqb_refl in Ex. discriminate.
      * destruct Hw as [<- | Hw].
        -- intros [-> | H]; [rewrite N.eqb_refl in Ex; discriminate | ].
           exact (IH w0 (or_introl eq_refl) H).
        -- apply IH. now right.
Qed.

Lemma strip_extension_cut x e :
  extension e -> strip_extension (x ++ 46 :: e) = x.
Proof.
  intros [Hne He]. induction x as [| c x IH]; cbn [app strip_extension].
  - rewrite N.eqb_refl, He. destruct e; [contradiction | reflexivity].
  - rewrite IH. destruct (c =? 46); [ | reflexivity].
    assert (F : forallb extension_unit (x ++ 46 :: e) = false).
    { rewrite forallb_app. cbn. apply andb_false_r. }
    rewrite F, andb_false_r. reflexivity.
Qed.

Lemma strip_extension_in c s : In c (strip_extension s) -> In c s.
Proof.
  induction s as [| x s IH]; cbn [strip_extension]; [auto | ].
  destruct (_ && _ && _); [intros [] | ].
  intros [<- | H]; [now left | right; auto].
Qed.

Lemma spaces_for_dashes_extension e :
  extension e -> extension (spaces_for_dashes e).
Proof.
  intros [Hne He]. split.
  - destruct e; [contradiction | discriminate].
  - unfold spaces_for_dashes. rewrite forallb_forall in *.
    intros c Hc. apply in_map_iff in Hc as (d & <- & Hd).
    destruct ((d =? 45) || (d =? 95)); [reflexivity | auto].
Qed.

Lemma join_in sep ws c :
  In c (join sep ws) -> c = sep \/ exists w, In w ws /\ In c w.
Proof.
  induction ws as [| w ws IH]; cbn [join]; [intros [] | ].
  destruct ws as [| w' ws'].
  - intros H. right. exists w. split; [now left | exact H].
  - intros H. apply in_app_or in H as [H | [<- | H]].
    + right. exists w. split; [now left | exact H].
    + now left.
    + destruct (IH H) as [-> | (v & Hv & Hc)]; [now left | ].
      right. exists v. split; [now right | exact Hc].
Qed.

Lemma join_split sep s : join sep (split sep s) = s.
Proof.
  induction s as [| x s IH]; cbn [split]; [reflexivity | ].
  destruct (split sep s) as [| w0 ws] eqn:E;
    [exfalso; exact (split_not_nil sep s E) | ].
  destruct (x =? sep) eqn:Ex.
  - apply N.eqb_eq in Ex as ->.
    change (join sep ([] :: w0 :: ws)) with (sep :: join sep (w0 :: ws)).
    now rewrite IH.
  - destruct ws; cbn [join app] in *; f_equal; exact IH.
Qed.

Lemma join_last sep init w : exists before, join sep (init ++ [w]) = before ++ w.
Proof.
  induction init as [| i init [b Hb]]; [exists []; reflexivity | ].
  exists (i ++ sep :: b). cbn [app join].
  destruct (init ++ [w]) eqn:E; [destruct init; discriminate E | ].
  rewrite Hb, <- app_assoc. reflexivity.
Qed.

Lemma split_last_suffix sep s init w :
  split sep s = init ++ [w] -> exists before, s = before ++ w.
Proof.
  intros E. destruct (join_last sep init w) as [b Hb].
  exists b. rewrite <- Hb, <- E. symmetry. apply join_split.
Qed.

(** X6: the title depends on the last path segment alone: whatever stands
    before the last [/] of the URL does not matter. *)
Theorem getDocumentTitle_last_segment (before name : jsstring) :
  getDocumentTitle upper (before ++ 47 :: name) = getDocumentTitle upper name.
Proof.
  unfold getDocumentTitle. rewrite split_app.
  rewrite pop_app by apply split_not_nil. reflexivity.
Qed.

(** X7: a URL with no file name (the empty URL, or one that ends in [/])
    gets the empty title, and its download is named "document.pdf". *)
Theorem no_file_name (url : jsstring)
  (Hurl : url = [] \/ exists before, url = before ++ [47]) :
  getDocumentTitle upper url = []
  /\ download_name url = lit "document.pdf".
Proof.
  destruct Hurl as [-> | [before ->]]; [split; reflexivity | ].
  unfold getDocumentTitle, download_name. rewrite split_app.
  rewrite pop_app by apply split_not_nil. split; reflexivity.
Qed.

Lemma file_name_with_extension (stem e : jsstring) :
  extension e ->
  exists w,
    pop (split 47 stem) = Some w
    /\ strip_extension
         (spaces_for_dashes (or_else (pop (split 47 (stem ++ 46 :: e))) []))
       = spaces_for_dashes w.
Proof.
  intros He.
  assert (Hs : forallb (fun c => negb (c =? 47)) (46 :: e) = true).
  { cbn [forallb]. change (negb (46 =? 47)) with true. cbn [andb].
    destruct He as [_ He]. apply forallb_forall. intros c Hc.
    apply (proj1 (forallb_forall _ _) He) in Hc. unfold extension_unit in Hc.
    apply negb_true_iff, orb_false_iff in Hc as [Hc _]. now rewrite Hc. }
  destruct (split_last_piece 47 stem (46 :: e) Hs) as (init & w & E1 & E2).
  exists w. rewrite E1, E2, !pop_last. split; [reflexivity | ].
  assert (Eo : forall x : jsstring, x <> [] -> or_else (Some x) [] = x)
    by (intros [| ? ?] H; [contradiction | reflexivity]).
  rewrite Eo by (destruct w; discriminate). unfold spaces_for_dashes. rewrite map_app. cbn [map].
  change (if (46 =? 45) || (46 =? 95) then 32 else 46) with 46.
  apply strip_extension_cut. apply spaces_for_dashes_extension, He.
Qed.

(** X8: the title does not depend on what the extension is: two URLs that
    differ only in the extension after the last [.] get the same title.
    (An extension is one or more code units, none a [/] or a [.].) *)
Theorem getDocumentTitle_any_extension (stem e1 e2 : jsstring)
  (H1 : extension e1) (H2 : extension e2) :
  getDocumentTitle upper (stem ++ 46 :: e1)
  = getDocumentTitle upper (stem ++ 46 :: e2).
Proof.
  unfold getDocumentTitle.
  destruct (file_name_with_extension stem H1) as (w1 & P1 & ->).
  destruct (file_name_with_extension stem H2) as (w2 & P2 & ->).
  congruence.
Qed.

(** X9: only the last extension goes, and a name that is nothing but an
    extension leaves nothing: a file called [.env] (a [.] and an
    extension, after the last [/]) gets the empty title. *)
Theorem getDocumentTitle_dot_file (before e : jsstring)
  (He : extension e)
  (Hdir : before = [] \/ exists dir, before = dir ++ [47]) :
  getDocumentTitle upper (before ++ 46 :: e) = [].
Proof.
  unfold getDocumentTitle.
  destruct (file_name_with_extension before He) as (w & P & ->).
  assert (w = []) as ->; [ | reflexivity].
  destruct Hdir as [-> | [dir ->]].
  - cbn in P. congruence.
  - rewrite split_app, pop_app in P by apply split_not_nil.
    cbn in P. congruence.
Qed.

Lemma capitalize_ascii_in (w : jsstring) c :
  Forall (fun x => x < 128) w ->
  In c (capitalize upper w) ->
  In c w \/ (65 <= c <= 90).
Proof.
  destruct w as [| x w]; cbn [capitalize]; [auto | ].
  intros Hw Hc. inversion Hw as [| ? ? Hx _]; subst.
  unfold toUpperCase1 in Hc. apply in_app_or in Hc as [Hc | Hc].
  - destruct ((97 <=? x) && (x <=? 122)) eqn:E.
    + destruct Hc as [<- | []]. right.
      apply andb_true_iff in E as [E1 E2].
      apply N.leb_le in E1, E2. lia.
    + apply N.ltb_lt in Hx. rewrite Hx in Hc.
      destruct Hc as [<- | []]. left. now left.
  - left. now right.
Qed.

(** X10: for a URL of ASCII code units the title holds neither [-] nor
    [_]: each has become a space, or has gone with the extension. *)
Theorem getDocumentTitle_no_dashes (url : jsstring)
  (Hascii : ascii url) :
  ~ In 45 (getDocumentTitle upper url) /\ ~ In 95 (getDocumentTitle upper url).
Proof.
  assert (K : forall c, In c (getDocumentTitle upper url) ->
                        c <> 45 /\ c <> 95).
  { intros c Hc. unfold getDocumentTitle in Hc.
    set (name := or_else (pop (split 47 url)) []) in Hc.
    assert (Hname : forall x, In x name -> x < 128).
    { intros x Hx. unfold name in Hx.
      destruct (pop (split 47 url)) as [[| y w] | ] eqn:P; try destruct Hx.
      - apply (proj1 (Forall_forall _ _) Hascii).
        apply (split_pieces 47 url (y :: w)); [apply pop_in, P | now left].
      - apply (proj1 (Forall_forall _ _) Hascii).
        apply (split_pieces 47 url (y :: w)); [apply pop_in, P | now right]. }
    assert (Hclean : forall x, In x (strip_extension (spaces_for_dashes name)) ->
                               x <> 45 /\ x <> 95 /\ x < 128).
    { intros x Hx. apply strip_extension_in in Hx.
      unfold spaces_for_dashes in Hx. apply in_map_iff in Hx as (y & <- & Hy).
      specialize (Hname y Hy).
      destruct ((y =? 45) || (y =? 95)) eqn:E; [lia | ].
      apply orb_false_iff in E as [E1 E2]. apply N.eqb_neq in E1, E2. lia. }
    apply join_in in Hc as [-> | (w & Hw & Hcw)]; [lia | ].
    apply in_map_iff in Hw as (v & <- & Hv).
    apply capitalize_ascii_in in Hcw.
    - destruct Hcw as [Hcv | Hr]; [ | lia].
      destruct (Hclean c (split_pieces 32 _ v c Hv Hcv)) as (? & ? & _). auto.
    - apply Forall_forall. intros x Hx.
      destruct (Hclean x (split_pieces 32 _ v x Hv Hx)) as (_ & _ & ?). auto. }
  split; intros H; destruct (K _ H); congruence.
Qed.

(** X11: the name given to a download is never empty and never holds a
    [/]; it is the end of the URL, unless the URL has no file name, where
    it is "document.pdf". *)
Theorem download_name_shape (url : jsstring) :
  download_name url <> []
  /\ ~ In 47 (download_name url)
  /\ ((exists before, url = before ++ download_name url)
      \/ download_name url = lit "document.pdf").
Proof.
  unfold download_name.
  assert (Hs : forallb (fun c : N => negb (c =? 47)) [] = true) by reflexivity.
  destruct (split_last_piece 47 url [] Hs) as (init & w & E & _).
  rewrite E, pop_last. destruct w as [| c w].
  - cbn [or_else]. split; [discriminate | ]. split; [ | now right].
    intros H. cbv in H. repeat (destruct H as [H | H]; [discriminate H | ]).
    exact H.
  - cbn [or_else]. split; [discriminate | ]. split.
    + apply (split_no_sep 47 url). rewrite E. apply in_or_app. right. now left.
    + left. exact (@split_last_suffix 47 url init (c :: w) E).
Qed.

End DocsFacts.

Section DocsWitnesses.
Import Js Page Docs Terms Terms2.
Local Open Scope N_scope.

Lemma no_file_name_witness :
  getDocumentTitle plain_upper (lit "https://x/docs/") = []
  /\ download_name (lit "https://x/docs/") = lit "document.pdf".
Proof.
  apply (@no_file_name plain_upper (lit "https://x/docs/")).
  right. exists (lit "https://x/docs"). reflexivity.
Defined.

Lemma getDocumentTitle_any_extension_witness :
  getDocumentTitle plain_upper (lit "https://x/my-file_name.pdf")
  = getDocumentTitle plain_upper (lit "https://x/my-file_name.docx").
Proof.
  apply (@getDocumentTitle_any_extension plain_upper
           (lit "https://x/my-file_name") (lit "pdf") (lit "docx"));
    split; (discriminate || reflexivity).
Defined.

Lemma getDocumentTitle_dot_file_witness :
  getDocumentTitle plain_upper (lit "https://x/.env") = [].
Proof.
  apply (@getDocumentTitle_dot_file plain_upper (lit "https://x/") (lit "env")).
  - split; [discriminate | reflexivity].
  - right. exists (lit "https://x"). reflexivity.
Defined.

Lemma getDocumentTitle_no_dashes_witness :
  ~ In 45 (getDocumentTitle plain_upper (lit "https://x/my-file_name.pdf"))
  /\ ~ In 95 (getDocumentTitle plain_upper (lit "https://x/my-file_name.pdf")).
Proof.
  apply (@getDocumentTitle_no_dashes plain_upper (lit "https://x/my-file_name.pdf")).
  unfold ascii. repeat constructor.
Defined.

End DocsWitnesses.

Section DownloadFacts.
Import Js Page Docs Terms Terms2.
Local Open Scope N_scope.

Variable lower : jsstring -> jsstring.
Variable href_of : jsstring -> jsstring.

Ltac download_eval :=
  cbv [handleDownload act try_catch bind modify throw ret app].


(** X12: for a URL that does not end in [.pdf] (whatever the case of the
    letters) nothing is fetched: the link is put in the document, clicked
    once with the URL itself as its address, the download name and the
    target [_blank], and taken out again. *)
Theorem handleDownload_direct (url : jsstring) (net : blob_fetch)
  (Hother : endsWith (toLowerCase lower url) (lit ".pdf") = false) :
  handleDownload lower href_of url net [] =
    (Returned tt,
     [AAppend; AClick url (download_name url) (lit "_blank"); ARemove]
     ++ after_click href_of url)
  /\ List.filter is_afetch (snd (handleDownload lower href_of url net [])) = [].
Proof.
  assert (E : handleDownload lower href_of url net [] =
    (Returned tt,
     [AAppend; AClick url (download_name url) (lit "_blank"); ARemove]
     ++ after_click href_of url)).
  { download_eval. rewrite Hother. unfold after_click.
    destruct (startsWith (href_of url) (lit "blob:")); reflexivity. }
  rewrite E. split; [reflexivity | ]. cbn [snd]. unfold after_click.
  destruct (startsWith (href_of url) (lit "blob:")); reflexivity.
Qed.

(** X13: when the URL ends in [.pdf] and the fetch of the blob fails, the
    failure is only warned about: the download goes on through the link,
    clicked once with the original URL as its address; the URL is not
    opened with [window.open]. *)
Theorem handleDownload_fetch_fails (url : jsstring) (e : exn)
  (Hpdf : endsWith (toLowerCase lower url) (lit ".pdf") = true) :
  handleDownload lower href_of url (NoBlob e) [] =
    (Returned tt,
     [AFetch url; AWarn; AAppend;
      AClick url (download_name url) (lit "_blank"); ARemove]
     ++ after_click href_of url)
  /\ ~ In (AWindowOpen url) (snd (handleDownload lower href_of url (NoBlob e) [])).
Proof.
  assert (E : handleDownload lower href_of url (NoBlob e) [] =
    (Returned tt,
     [AFetch url; AWarn; AAppend;
      AClick url (download_name url) (lit "_blank"); ARemove]
     ++ after_click href_of url)).
  { download_eval. rewrite Hpdf. unfold after_click.
    destruct (startsWith (href_of url) (lit "blob:")); reflexivity. }
  rewrite E. split; [reflexivity | ]. cbn [snd]. unfold after_click.
  destruct (startsWith (href_of url) (lit "blob:")); cbn;
    intros H; repeat (destruct H as [H | H]; [discriminate H | ]); exact H.
Qed.

(** X14: when the URL ends in [.pdf] and the blob arrives, the link is
    clicked with the object URL made for the blob, under the download name
    taken from the original URL, and the object URL is revoked after the
    click (its address reading back as a [blob:] one). *)
Theorem handleDownload_blob (url blob_url : jsstring)
  (Hpdf : endsWith (toLowerCase lower url) (lit ".pdf") = true)
  (Hblob : startsWith (href_of blob_url) (lit "blob:") = true) :
  handleDownload lower href_of url (Blob blob_url) [] =
    (Returned tt,
     [AFetch url; AAppend;
      AClick blob_url (download_name url) (lit "_blank"); ARemove;
      ARevoke (href_of blob_url)]).
Proof.
  download_eval. rewrite Hpdf, Hblob. reflexivity.
Qed.


End DownloadFacts.

Section DownloadWitnesses.
Import Js Page Docs Terms Terms2.
Local Open Scope N_scope.

Lemma handleDownload_direct_witness :
  handleDownload (fun s => s) (fun s => s) (lit "https://x/letter.docx")
    NoAnswer [] =
    (Returned tt,
     [AAppend;
      AClick (lit "https://x/letter.docx") (lit "letter.docx") (lit "_blank");
      ARemove])
  /\ List.filter is_afetch
       (snd (handleDownload (fun s => s) (fun s => s)
               (lit "https://x/letter.docx") NoAnswer [])) = [].
Proof.
  apply (@handleDownload_direct (fun s => s) (fun s => s)
           (lit "https://x/letter.docx") NoAnswer).
  reflexivity.
Defined.

Lemma handleDownload_fetch_fails_witness :
  handleDownload (fun s => s) (fun s => s) (lit "https://x/Guide.PDF")
    (NoBlob TypeError) [] =
    (Returned tt,
     [AFetch (lit "https://x/Guide.PDF"); AWarn; AAppend;
      AClick (lit "https://x/Guide.PDF") (lit "Guide.PDF") (lit "_blank");
      ARemove])
  /\ ~ In (AWindowOpen (lit "https://x/Guide.PDF"))
          (snd (handleDownload (fun s => s) (fun s => s)
                  (lit "https://x/Guide.PDF") (NoBlob TypeError) [])).
Proof.
  apply (@handleDownload_fetch_fails (fun s => s) (fun s => s)
           (lit "https://x/Guide.PDF") TypeError).
  reflexivity.
Defined.

Lemma handleDownload_blob_witness :
  handleDownload (fun s => s) (fun s => s) (lit "https://x/guide.pdf")
    (Blob (lit "blob:https://x/1f0c")) [] =
    (Returned tt,
     [AFetch (lit "https://x/guide.pdf"); AAppend;
      AClick (lit "blob:https://x/1f0c") (lit "guide.pdf") (lit "_blank");
      ARemove; ARevoke (lit "blob:https://x/1f0c")]).
Proof.
  apply (@handleDownload_blob (fun s => s) (fun s => s)
           (lit "https://x/guide.pdf") (lit "blob:https://x/1f0c"));
    reflexivity.
Defined.


End DownloadWitnesses.

(** ** Further properties of the chat page *)

Section PageMore.
Import Js Page View Terms Terms2.

Ltac page_eval :=
  cbv [handleSubmit sendMessageToAPI fetch Page.emit setError setLoading
       setMessages setInputValue try_finally try_catch bind parse_json
       modify gets throw ret negb object_literal];
  cbn [page events messages inputValue isSidebarOpen loading error fst snd].

Ltac calls_eval :=
  unfold calls; cbn [events]; rewrite ?filter_app; cbn [filter is_call];
  rewrite ?app_nil_r.

Lemma trimStart_head (s : jsstring) :
  trimStart s = [] \/
  exists c rest, trimStart s = c :: rest /\ is_white_space c = false.
Proof.
  induction s as [| c s IH]; cbn [trimStart]; [now left | ].
  destruct (is_white_space c) eqn:E; [exact IH | right; eauto].
Qed.

Lemma trimStart_nil (s : jsstring) : trimStart s = [] -> blank s.
Proof.
  unfold blank. induction s as [| c s IH]; cbn [trimStart forallb]; [auto | ].
  destruct (is_white_space c); [auto | discriminate].
Qed.

Lemma trim_nil (s : jsstring) : trim s = [] <-> blank s.
Proof.
  split; [ | apply trim_white]. unfold trim. intros H.
  apply (f_equal (@rev N)) in H. rewrite rev_involutive in H. cbn [rev] in H.
  apply trimStart_nil in H. unfold blank in H.
  destruct (trimStart_head s) as [E | (c & rest & E & Hc)].
  - apply trimStart_nil, E.
  - rewrite E in H. rewrite forallb_forall in H.
    rewrite (H c) in Hc; [discriminate | ].
    apply in_rev. rewrite rev_involutive. now left.
Qed.

Lemma trim_not_nil_input (s : jsstring) : trim s <> [] -> s <> [].
Proof. intros H ->. apply H. reflexivity. Qed.

Lemma handleSubmit_blank (srv : api) (b : browser) :
  blank (inputValue (page b)) ->
  handleSubmit srv b =
    (Returned tt, mkBrowser (page b) (events b ++ [EPreventDefault])).
Proof.
  intros H. page_eval. rewrite (trim_white _ H). reflexivity.
Qed.

(** The three ways a submission of non-blank input can go. *)
Lemma handleSubmit_cases (srv : api) (b : browser) :
  trim (inputValue (page b)) <> [] ->
  let text := inputValue (page b) in
  let sent := (events b ++ [EPreventDefault])
              ++ [EFetchApi (lit "/api/chat") (request_for text)] in
  (srv (request_for text) = Unanswered /\
   handleSubmit srv b =
     (Pending,
      mkBrowser (mkChatPage (messages (page b) ++ [userMessage text]) []
                            (isSidebarOpen (page b)) true None)
                sent))
  \/ (exists st d,
        srv (request_for text) = Answered st (Some d) /\ status_ok st = true /\
        handleSubmit srv b =
          (Returned tt,
           mkBrowser (mkChatPage ((messages (page b) ++ [userMessage text]) ++ [d])
                                 [] (isSidebarOpen (page b)) false None)
                     sent))
  \/ (srv (request_for text) <> Unanswered /\
      handleSubmit srv b =
        (Returned tt,
         mkBrowser (mkChatPage (messages (page b) ++ [userMessage text]) []
                               (isSidebarOpen (page b)) false
                               (Some (lit "Failed to get response. Please try again.")))
                   ((sent ++ [EConsoleError]) ++ [EConsoleError]))).
Proof.
  intros Hin text sent.
  destruct (srv (request_for text)) as [st [d | ] | | ] eqn:Hsrv.
  - destruct (status_ok st) eqn:Hok.
    + right. left. exists st, d. repeat split; auto.
      exact (handleSubmit_answered srv b Hin Hsrv Hok).
    + right. right. split; [discriminate | ].
      apply handleSubmit_rejected; [exact Hin | ].
      left. fold text. rewrite Hsrv. exact Hok.
  - right. right. split; [discriminate | ].
    apply handleSubmit_rejected; [exact Hin | ]. right. exists st. exact Hsrv.
  - right. right. split; [discriminate | ].
    apply handleSubmit_rejected; [exact Hin | ].
    left. fold text. rewrite Hsrv. exact I.
  - left. split; [reflexivity | ]. exact (handleSubmit_pending srv b Hin Hsrv).
Qed.

Lemma handleSubmit_calls (srv : api) (b : browser) :
  trim (inputValue (page b)) <> [] ->
  calls (snd (handleSubmit srv b)) =
    calls b ++ [EFetchApi (lit "/api/chat") (request_for (inputValue (page b)))].
Proof.
  intros Hin.
  destruct (handleSubmit_cases srv b Hin)
    as [[_ E] | [(st & d & _ & _ & E) | [_ E]]];
    rewrite E; cbn [snd]; calls_eval; reflexivity.
Qed.

(** X16: a submission calls the route exactly when the input holds
    something other than white space: the calls made are as before if and
    only if the input is blank. *)
Theorem handleSubmit_calls_iff_not_blank (srv : api) (b : browser) :
  calls (snd (handleSubmit srv b)) = calls b <-> blank (inputValue (page b)).
Proof.
  split.
  - intros H. apply trim_nil.
    destruct (trim (inputValue (page b))) as [| c r] eqn:E; [reflexivity | ].
    exfalso. rewrite handleSubmit_calls in H by (rewrite E; discriminate).
    apply (f_equal (@List.length event)) in H.
    rewrite length_app in H. cbn in H. lia.
  - intros H. rewrite (handleSubmit_blank srv b H). cbn [snd].
    calls_eval. reflexivity.
Qed.

(** X17: a submission only ever adds to the end of the transcript: what
    was there stays, in place and unchanged, at most two entries follow it,
    and the sidebar flag is left alone. *)
Theorem handleSubmit_appends_only (srv : api) (b : browser) :
  exists added,
    messages (page (snd (handleSubmit srv b))) = messages (page b) ++ added
    /\ (List.length added <= 2)%nat
    /\ isSidebarOpen (page (snd (handleSubmit srv b))) = isSidebarOpen (page b).
Proof.
  destruct (trim (inputValue (page b))) as [| c r] eqn:E.
  - apply trim_nil in E. rewrite (handleSubmit_blank srv b E).
    exists []. cbn [snd page]. rewrite app_nil_r. repeat split. cbn. lia.
  - assert (Hin : trim (inputValue (page b)) <> []) by (rewrite E; discriminate).
    destruct (handleSubmit_cases srv b Hin)
      as [[_ H] | [(st & d & _ & _ & H) | [_ H]]];
      rewrite H; cbn [snd page messages isSidebarOpen].
    + eexists. repeat split. cbn. lia.
    + exists [userMessage (inputValue (page b)); d].
      rewrite <- app_assoc. repeat split. cbn. lia.
    + eexists. repeat split. cbn. lia.
Qed.

End PageMore.

(** ** The page in front of the route *)

Section EndToEnd.
Import Js Page View Terms Terms2.

Lemma request_message (text : jsstring) :
  text <> [] ->
  field (request_for text) (lit "message") = Some (JStr text)
  /\ truthy (Some (JStr text)) = true.
Proof. intros H. split; [reflexivity | ]. destruct text; [contradiction | reflexivity]. Qed.

(** A request with a truthy message to a stalled external service leaves
    the handler waiting. *)
Lemma POST_stalled (req m : json) tie u :
  field req (lit "message") = Some m ->
  truthy (Some m) = true ->
  stalled tie u ->
  fst (Route.run_POST (Some req) tie u) = Pending.
Proof.
  intros Hm Ht (t & st & -> & Ha & Hok).
  destruct (POST_forward_paths req tie (Route.Stalls t st) Hm Ht)
    as [[Hto _] | [(t' & e & [=] & _) | [(t' & e & [=] & _)
       | [(t' & st' & [= <- <-] & _ & Hno & _)
       | [(t' & st' & [= <- <-] & _ & Hno & _)
       | [(t' & st' & b & [=] & _) | [(t' & st' & d & [=] & _)
       | [_ E]]]]]]]].
  - exfalso. eapply times_out_not_arrives;
      [exact Hto | reflexivity | exact Ha].
  - congruence.
  - congruence.
  - rewrite E. reflexivity.
Qed.

(** The route as the page meets it: no answer when the handler is left
    waiting, otherwise the handler's reply, of role "assistant". *)
Lemma served_answers (tie : bool) (u : Route.upstream) (body : json) :
  (stalled tie u /\ served tie u body = Unanswered)
  \/ exists r,
       served tie u body
         = Answered (Route.res_status r) (Some (Route.wire (Route.res_body r)))
       /\ Route.role (Route.res_body r) = lit "assistant".
Proof.
  destruct (POST_outcomes (Some body) tie u)
    as [[Hs [rt E]] | (r & rt & E & Hr & _)].
  - left. split; [exact Hs | ]. unfold served. rewrite E. reflexivity.
  - right. exists r. unfold served. rewrite E. auto.
Qed.

Lemma entry_userMessage (text : jsstring) : entry (userMessage text).
Proof. eexists. split; [reflexivity | now left]. Qed.

Lemma entry_wire (m : Route.Message) :
  Route.role m = lit "assistant" -> entry (Route.wire m).
Proof.
  intros H. destruct m as [r [c | ] [l | ]]; cbn in H; subst r;
    (eexists; split; [reflexivity | now right]).
Qed.

Lemma wire_not_by_user (m : Route.Message) :
  Route.role m = lit "assistant" -> by_user (Route.wire m) = false.
Proof.
  intros H. destruct m as [r [c | ] [l | ]]; cbn in H; subst r; reflexivity.
Qed.

(** What a submission through the route leaves in the transcript: the
    user's message, and after it at most the route's reply. *)
Lemma submit_through_route (tie : bool) (u : Route.upstream) (b : browser) :
  trim (inputValue (page b)) <> [] ->
  exists o b' tail,
    handleSubmit (served tie u) b = (o, b')
    /\ messages (page b')
       = messages (page b) ++ userMessage (inputValue (page b)) :: tail
    /\ (tail = [] \/
        exists m, tail = [Route.wire m] /\ Route.role m = lit "assistant")
    /\ ((stalled tie u /\ o = Pending /\ loading (page b') = true)
        \/ (served tie u (request_for (inputValue (page b))) <> Unanswered
            /\ o = Returned tt /\ loading (page b') = false)).
Proof.
  intros Hin.
  destruct (handleSubmit_cases (served tie u) b Hin)
    as [[H E] | [(st & d & H & _ & E) | [H E]]].
  - rewrite E. eexists; eexists; exists []. split; [reflexivity | ].
    split; [reflexivity | ]. split; [now left | ]. left.
    destruct (served_answers tie u (request_for (inputValue (page b))))
      as [[Hs _] | (r & Hr & _)]; [auto | congruence].
  - destruct (served_answers tie u (request_for (inputValue (page b))))
      as [[_ Hs] | (r & Hs & Hr)]; [congruence | ].
    rewrite Hs in H. injection H as _ <-. rewrite E.
    eexists; eexists; eexists. split; [reflexivity | ].
    cbn [page loading messages]. rewrite <- app_assoc.
    split; [reflexivity | ]. split; [right; eauto | ]. right.
    rewrite Hs. repeat split. discriminate.
  - rewrite E. eexists; eexists; exists []. split; [reflexivity | ].
    split; [reflexivity | ]. split; [now left | ]. right. auto.
Qed.

(** X18: with the route behind it, a submission of non-blank input ends,
    with [loading] cleared, whatever the external service does, even if it
    never sends anything (the handler's deadline bounds that wait), with
    one exception: when a 2xx head arrives in time and its body never
    completes, the handler never answers and the page stays loading. *)
Theorem submit_ends_unless_stalled (tie : bool) (u : Route.upstream)
  (b : browser)
  (Hinput : trim (inputValue (page b)) <> []) :
  (stalled tie u
   /\ exists b',
        handleSubmit (served tie u) b = (Pending, b')
        /\ loading (page b') = true)
  \/ (~ stalled tie u
      /\ exists b',
           handleSubmit (served tie u) b = (Returned tt, b')
           /\ loading (page b') = false).
Proof.
  destruct (submit_through_route tie u b Hinput)
    as (o & b' & tail & E & _ & _ & [(Hs & -> & Hl) | (Hn & -> & Hl)]).
  - left. split; [exact Hs | eauto].
  - right. split; [ | eauto]. intros Hs. apply Hn.
    destruct (request_message (trim_not_nil_input Hinput)) as [Hm Ht].
    unfold served.
    rewrite (@POST_stalled (request_for (inputValue (page b)))
               (JStr (inputValue (page b))) tie u Hm Ht Hs).
    reflexivity.
Qed.

(** X19: with the route behind it the transcript stays renderable: if
    every entry is an object whose role is "user" or "assistant", so is
    every entry after a submission, whatever the external service sent. *)
Theorem submit_keeps_entries (tie : bool) (u : Route.upstream) (b : browser)
  (Hentries : Forall entry (messages (page b))) :
  Forall entry (messages (page (snd (handleSubmit (served tie u) b)))).
Proof.
  destruct (trim (inputValue (page b))) as [| c r] eqn:E.
  - apply trim_nil in E. rewrite (handleSubmit_blank _ b E). exact Hentries.
  - assert (Hin : trim (inputValue (page b)) <> []) by (rewrite E; discriminate).
    destruct (submit_through_route tie u b Hin)
      as (o & b' & tail & Eb & Hm & Ht & _).
    rewrite Eb. cbn [snd]. rewrite Hm. apply Forall_app. split; [exact Hentries | ].
    constructor; [apply entry_userMessage | ].
    destruct Ht as [-> | (m & -> & Hr)]; [constructor | ].
    constructor; [apply entry_wire, Hr | constructor].
Qed.

(** X20: end to end, on success: when the external service answers in
    time with a 2xx status and a JSON body other than [null], a submission
    of non-blank input adds to the transcript the user's message and then
    the reply [{role: "assistant", content, urls}] built from that body, as
    it reads after the wire; no banner is shown and [loading] is cleared. *)
Theorem submit_relays_answer (tie : bool) (t st : Z) (data : json) (b : browser)
  (Hinput : trim (inputValue (page b)) <> [])
  (Hintime : arrives tie t)
  (Hok : status_ok st = true)
  (Hdata : data <> JNull) :
  exists b',
    handleSubmit (served tie (Route.Responds t st (Some data))) b
      = (Returned tt, b')
    /\ messages (page b')
       = messages (page b)
         ++ [userMessage (inputValue (page b)); Route.wire (relayed data)]
    /\ error (page b') = None
    /\ loading (page b') = false.
Proof.
  destruct (request_message (trim_not_nil_input Hinput)) as [Hm Ht].
  assert (Hs : served tie (Route.Responds t st (Some data))
                 (request_for (inputValue (page b)))
               = Answered 200 (Some (Route.wire (relayed data)))).
  { unfold served.
    rewrite (@POST_success (request_for (inputValue (page b)))
               (JStr (inputValue (page b))) data tie t st Hm Ht Hintime Hok Hdata).
    reflexivity. }
  rewrite (handleSubmit_answered _ b Hinput Hs eq_refl).
  eexists. split; [reflexivity | ]. cbn [page messages error loading].
  rewrite <- app_assoc. repeat split.
Qed.

End EndToEnd.
(** ** Sidebar and keys *)

Section ViewFacts.
Import Js Page View Terms Terms2.

Lemma filter_user_objects (ms : list json) :
  Forall (fun m => m <> JNull) ms ->
  filter_user ms = Returned (List.filter by_user ms).
Proof.
  induction 1 as [| m ms Hm _ IH]; [reflexivity | ].
  cbn [filter_user List.filter]. rewrite IH.
  assert (E : role_is_user m = Some (by_user m))
    by (destruct m; [contradiction | reflexivity ..]).
  rewrite E. destruct (by_user m); reflexivity.
Qed.

Lemma slice_last_split {A} (n : nat) (a : list A) :
  exists earlier,
    a = earlier ++ slice_last n a
    /\ List.length (slice_last n a) = Nat.min n (List.length a).
Proof.
  unfold slice_last. exists (firstn (List.length a - n) a). split.
  - symmetry. apply firstn_skipn.
  - rewrite length_skipn. lia.
Qed.

Lemma slice_last_newest {A} (n : nat) (a : list A) (x : A) :
  exists shown, slice_last (S n) (a ++ [x]) = shown ++ [x].
Proof.
  unfold slice_last. rewrite length_app. cbn [List.length].
  exists (skipn (List.length a + 1 - S n) a).
  rewrite skipn_app.
  replace (List.length a + 1 - S n - List.length a)%nat with 0%nat by lia.
  reflexivity.
Qed.

Lemma entry_not_null (m : json) : entry m -> m <> JNull.
Proof. intros (fields & -> & _). discriminate. Qed.

Lemma recentChats_objects (ms : list json) :
  ms <> [] ->
  Forall (fun m => m <> JNull) ms ->
  recentChats ms
  = Returned (Some (List.map (fun m => field m (lit "content"))
                             (slice_last 5 (List.filter by_user ms)))).
Proof.
  intros Hsome Hobjects. unfold recentChats.
  destruct ms as [| m ms]; [contradiction | ].
  rewrite (filter_user_objects Hobjects). reflexivity.
Qed.

(** X21: the sidebar lists the user's own messages only, the last five at
    most and in the order they were sent: for a transcript with no [null]
    entry, what is shown is the [content] of the messages in the tail of
    the list of user messages, five of them or all when there are fewer. *)
Theorem recentChats_last_five (ms : list json)
  (Hsome : ms <> [])
  (Hobjects : Forall (fun m => m <> JNull) ms) :
  exists earlier shown,
    List.filter by_user ms = earlier ++ shown
    /\ List.length shown = Nat.min 5 (List.length (List.filter by_user ms))
    /\ recentChats ms
       = Returned (Some (List.map (fun m => field m (lit "content")) shown)).
Proof.
  destruct (slice_last_split 5 (List.filter by_user ms)) as (earlier & E & L).
  exists earlier, (slice_last 5 (List.filter by_user ms)).
  split; [exact E | ]. split; [exact L | ].
  apply recentChats_objects; assumption.
Qed.

(** X22: a [null] anywhere in the transcript makes the sidebar throw:
    [msg.role] cannot be read. *)
Theorem recentChats_null_entry (before after : list json) :
  recentChats (before ++ JNull :: after) = Thrown TypeError.
Proof.
  assert (E : filter_user (before ++ JNull :: after) = Thrown TypeError).
  { induction before as [| m ms IH]; [reflexivity | ].
    cbn [app filter_user]. rewrite IH.
    destruct (role_is_user m); reflexivity. }
  unfold recentChats. rewrite E. destruct before; reflexivity.
Qed.

(** X23: after a submission through the route, the newest line of the
    sidebar is the text just sent (as typed), whether or not a reply came
    back. *)
Theorem recentChats_after_submit (tie : bool) (u : Route.upstream) (b : browser)
  (Hinput : trim (inputValue (page b)) <> [])
  (Hentries : Forall entry (messages (page b))) :
  exists older,
    recentChats (messages (page (snd (handleSubmit (served tie u) b))))
    = Returned (Some (older ++ [Some (JStr (inputValue (page b)))])).
Proof.
  destruct (submit_through_route tie u b Hinput)
    as (o & b' & tail & Eb & Hm & Ht & _).
  rewrite Eb. cbn [snd]. rewrite Hm.
  set (text := inputValue (page b)).
  assert (Hnn : Forall (fun m => m <> JNull)
                  (messages (page b) ++ userMessage text :: tail)).
  { apply Forall_app. split.
    - eapply Forall_impl; [ | exact Hentries]. apply entry_not_null.
    - constructor; [discriminate | ].
      destruct Ht as [-> | (m & -> & _)]; repeat constructor.
      destruct m as [r [c | ] [l | ]]; discriminate. }
  assert (Hf : List.filter by_user (messages (page b) ++ userMessage text :: tail)
               = List.filter by_user (messages (page b)) ++ [userMessage text]).
  { rewrite filter_app. f_equal. cbn [List.filter].
    change (by_user (userMessage text)) with true. cbn iota. f_equal.
    destruct Ht as [-> | (m & -> & Hr)]; [reflexivity | ].
    cbn [List.filter]. rewrite (wire_not_by_user m Hr). reflexivity. }
  rewrite (recentChats_objects
             (ms := messages (page b) ++ userMessage text :: tail))
    by (assumption || (destruct (messages (page b)); discriminate)).
  rewrite Hf.
  destruct (slice_last_newest 4 (List.filter by_user (messages (page b)))
              (userMessage text)) as (shown & ->).
  exists (List.map (fun m => field m (lit "content")) shown).
  rewrite map_app. reflexivity.
Qed.

Lemma str_eqb_eq (a c : jsstring) : str_eqb a c = true <-> a = c.
Proof.
  revert c. induction a as [| x a IH]; intros [| y c]; cbn [str_eqb];
    try (split; [discriminate | discriminate]); [split; reflexivity | ].
  rewrite andb_true_iff, N.eqb_eq, IH. split.
  - intros [-> ->]. reflexivity.
  - intros [= -> ->]. auto.
Qed.

(** X24: a key press sends a message exactly when it is Enter, without
    Shift, in a field that belongs to a form, over an input that is not
    blank; any other key press leaves the calls made as they were. *)
Theorem handleKeyDown_sends_iff (e : KeyboardEvent) (srv : api) (b : browser) :
  calls (snd (handleKeyDown e srv b)) <> calls b
  <-> (key e = lit "Enter" /\ shiftKey e = false /\ form e = true
       /\ ~ blank (inputValue (page b))).
Proof.
  unfold handleKeyDown.
  destruct (str_eqb (key e) (lit "Enter")) eqn:Ek.
  - apply str_eqb_eq in Ek. destruct (shiftKey e), (form e); cbn [andb negb].
    1-2: split; [intros H; exfalso; apply H; reflexivity | intros (_ & H & _); discriminate H].
    + set (b1 := mkBrowser (page b) (events b ++ [EPreventDefault])).
      assert (E : (bind (Page.emit EPreventDefault) (fun _ => handleSubmit srv)) b
                  = handleSubmit srv b1) by reflexivity.
      rewrite E.
      assert (Hc : calls b1 = calls b).
      { unfold b1, calls. cbn [events]. rewrite filter_app. apply app_nil_r. }
      rewrite <- Hc.
      change (inputValue (page b)) with (inputValue (page b1)).
      split.
      * intros H. repeat split; auto. intros Hb. apply H.
        rewrite (handleSubmit_blank srv b1 Hb). cbn [snd]. unfold calls.
        cbn [events]. rewrite filter_app. apply app_nil_r.
      * intros (_ & _ & _ & H) Hc'. apply H, trim_nil.
        destruct (trim (inputValue (page b1))) as [| c r] eqn:Et; [reflexivity | ].
        exfalso. rewrite handleSubmit_calls in Hc' by (rewrite Et; discriminate).
        apply (f_equal (@List.length event)) in Hc'.
        rewrite length_app in Hc'. cbn in Hc'. lia.
    + split; [ | intros (_ & _ & H & _); discriminate H].
      intros H. exfalso. apply H. cbn. unfold calls. cbn [events].
      rewrite filter_app. apply app_nil_r.
  - cbn [andb snd]. split; [intros H; exfalso; apply H; reflexivity | ].
    intros (H & _). apply str_eqb_eq in H. congruence.
Qed.

End ViewFacts.

Section Resubmission.
Import Js Page View Terms Terms2.
Local Open Scope js_scope.

(** X25: nothing is deduplicated: sending the same text twice (typed
    again after the first answer) to a route that answers it with a 2xx
    JSON body [d] adds the user's message and [d] twice over, in order. *)
Theorem resubmit_appends_again (srv : api) (b : browser) (st : Z) (d : json)
  (Hinput : trim (inputValue (page b)) <> [])
  (Hsrv : srv (request_for (inputValue (page b))) = Answered st (Some d))
  (Hok : status_ok st = true) :
  exists b',
    (handleSubmit srv ;;; onChange (inputValue (page b)) ;;; handleSubmit srv) b
      = (Returned tt, b')
    /\ messages (page b')
       = messages (page b)
         ++ [userMessage (inputValue (page b)); d;
             userMessage (inputValue (page b)); d].
Proof.
  set (text := inputValue (page b)) in *.
  unfold bind at 1. unfold text at 1.
  rewrite (handleSubmit_answered srv b Hinput Hsrv Hok). fold text.
  unfold bind, onChange, setInputValue, modify.
  cbn [page events messages inputValue isSidebarOpen loading error].
  match goal with
  | |- context [handleSubmit srv ?b1] =>
      rewrite (@handleSubmit_answered srv b1 st d Hinput Hsrv Hok)
  end.
  eexists. split; [reflexivity | ]. cbn [page messages].
  rewrite <- !app_assoc. reflexivity.
Qed.

End Resubmission.

Section PageWitnesses.
Import Js Page View Terms Terms2.
Local Open Scope js_scope.

Lemma resubmit_appends_again_witness :
  exists b',
    (handleSubmit (fun _ => Answered 200 (Some (userMessage (lit "echo"))))
     ;;; onChange (lit "hello")
     ;;; handleSubmit (fun _ => Answered 200 (Some (userMessage (lit "echo")))))
      (mkBrowser (mkChatPage [] (lit "hello") false false None) [])
      = (Returned tt, b')
    /\ messages (page b')
       = [userMessage (lit "hello"); userMessage (lit "echo");
          userMessage (lit "hello"); userMessage (lit "echo")].
Proof.
  apply (@resubmit_appends_again
           (fun _ => Answered 200 (Some (userMessage (lit "echo"))))
           (mkBrowser (mkChatPage [] (lit "hello") false false None) [])
           200 (userMessage (lit "echo")));
    [discriminate | reflexivity | reflexivity].
Defined.

Lemma submit_ends_unless_stalled_witness :
  exists b',
    handleSubmit (served true Route.Silent)
      (mkBrowser (mkChatPage [] (lit "hello") false false None) [])
      = (Returned tt, b')
    /\ loading (page b') = false.
Proof.
  destruct (@submit_ends_unless_stalled true Route.Silent
              (mkBrowser (mkChatPage [] (lit "hello") false false None) []))
    as [[(t & st & E & _) _] | [_ H]].
  - discriminate.
  - discriminate E.
  - exact H.
Defined.

Lemma submit_keeps_entries_witness :
  Forall entry
    (messages (page (snd (handleSubmit
       (served true (Route.Responds 35 200
                       (Some (JObj [(lit "response", JNum 42)]))))
       (mkBrowser (mkChatPage [userMessage (lit "hi")] (lit "hello")
                              false false None) []))))).
Proof.
  apply (@submit_keeps_entries true
           (Route.Responds 35 200 (Some (JObj [(lit "response", JNum 42)])))
           (mkBrowser (mkChatPage [userMessage (lit "hi")] (lit "hello")
                                  false false None) [])).
  cbn [page messages]. constructor; [ | constructor].
  exists (object_literal [(lit "role", Some (JStr (lit "user")));
                          (lit "content", Some (JStr (lit "hi")))]).
  split; [reflexivity | left; reflexivity].
Defined.

Lemma submit_relays_answer_witness :
  exists b',
    handleSubmit
      (served true (Route.Responds 35 200
                      (Some (JObj [(lit "response", JStr (lit "hi there"))]))))
      (mkBrowser (mkChatPage [] (lit "hello") false false None) [])
      = (Returned tt, b')
    /\ messages (page b')
       = [userMessage (lit "hello");
          JObj [(lit "role", JStr (lit "assistant"));
                (lit "content", JStr (lit "hi there"))]]
    /\ error (page b') = None
    /\ loading (page b') = false.
Proof.
  apply (@submit_relays_answer true 35 200
           (JObj [(lit "response", JStr (lit "hi there"))])
           (mkBrowser (mkChatPage [] (lit "hello") false false None) []));
    [discriminate | left; reflexivity | reflexivity | discriminate].
Defined.

Lemma recentChats_last_five_witness :
  exists earlier shown,
    List.filter by_user
      [userMessage (lit "a"); userMessage (lit "b"); userMessage (lit "c");
       userMessage (lit "d"); userMessage (lit "e"); userMessage (lit "f")]
    = earlier ++ shown
    /\ List.length shown = 5%nat
    /\ recentChats
         [userMessage (lit "a"); userMessage (lit "b"); userMessage (lit "c");
          userMessage (lit "d"); userMessage (lit "e"); userMessage (lit "f")]
       = Returned (Some (List.map (fun m => field m (lit "content")) shown)).
Proof.
  apply (@recentChats_last_five
           [userMessage (lit "a"); userMessage (lit "b"); userMessage (lit "c");
            userMessage (lit "d"); userMessage (lit "e"); userMessage (lit "f")]);
    [discriminate | repeat constructor; discriminate].
Defined.

Lemma recentChats_after_submit_witness :
  exists older,
    recentChats
      (messages (page (snd (handleSubmit (served true Route.Silent)
         (mkBrowser (mkChatPage [] (lit "hello") false false None) [])))))
    = Returned (Some (older ++ [Some (JStr (lit "hello"))])).
Proof.
  apply (@recentChats_after_submit true Route.Silent
           (mkBrowser (mkChatPage [] (lit "hello") false false None) []));
    [discriminate | constructor].
Defined.

End PageWitnesses.
